(** * postgresql-mcp-server: tool registry, dispatch and wide tools

    A shallow embedding of the TypeScript sources

      - [src/index.ts]            (connection-string resolution, the
                                   [PostgreSQLServer] class, [allTools];
                                   in the sources it follows the text of
                                   [analyze.ts]),
      - [src/tools/functions.ts]  (function and row-level-security tools,
                                   narrow and consolidated),
      - [src/tools/comment.ts]    (COMMENT ON helpers),
      - [src/tools/analyze.ts]    (database analysis),

    followed by the properties of the dispatch core that are checked
    against it.  Asynchronous code is read sequentially: every [await] is
    a step of a state-and-exception monad over a [world] that holds the
    single [DatabaseConnection] instance and the server it talks to. *)

From Stdlib Require Import String Ascii List ZArith Bool Lia DecimalString.
Import ListNotations.
Local Open Scope list_scope.
Local Open Scope string_scope.

Set Implicit Arguments.
#[local] Set Warnings "-register-all".

(* ================================================================== *)
(** * JavaScript values                                                 *)
(* ================================================================== *)

(** A number is kept by what the program observes of it: nothing below
    does arithmetic on one, it is tested ([!n], [n === 0]) and printed.
    [num_class] tells a zero (of either sign), [NaN], an infinity and any
    other finite number apart, and [num_String] is the text [String(n)]
    gives, in whatever notation the engine chooses for it ([1e+21],
    [0.1], [-7]). *)
Inductive number_class : Type := NumZero | NumNaN | NumInfinite | NumFinite.

Record js_number : Type := mkNumber {
  num_class : number_class;
  num_String : string
}.

(** The values that reach the tools: [request.params.arguments] is a
    JSON object, and a field that is not there reads as [undefined].  A
    string is the UTF-8 text of a well-formed JavaScript string, the way
    it travels in the request. *)
Inductive jsval : Type :=
| JUndefined
| JNull
| JBool (b : bool)
| JNum (n : js_number)
| JStr (s : string)
| JArr (xs : list jsval)
| JObj (fields : list (string * jsval)).

(** The double quote, which the messages of the server print around
    names. *)
Definition dq : string := String "034"%char EmptyString.

Definition string_is_empty (s : string) : bool :=
  match s with EmptyString => true | String _ _ => false end.

(** [!!v] *)
Definition truthy (v : jsval) : bool :=
  match v with
  | JUndefined | JNull => false
  | JBool b => b
  | JNum n => match num_class n with NumZero | NumNaN => false | _ => true end
  | JStr s => negb (string_is_empty s)
  | JArr _ | JObj _ => true
  end.

(** The decimal digits of an integer: the text of an array length or of
    an error code. *)
Definition string_of_Z (z : Z) : string := NilZero.string_of_int (Z.to_int z).

(** [String(v)], which is also what a template literal prints. *)
Fixpoint js_String (v : jsval) : string :=
  match v with
  | JUndefined => "undefined"
  | JNull => "null"
  | JBool true => "true"
  | JBool false => "false"
  | JNum n => num_String n
  | JStr s => s
  | JArr xs =>
      String.concat ","
        (map (fun x => match x with
                       | JUndefined | JNull => EmptyString
                       | _ => js_String x
                       end) xs)
  | JObj _ => "[object Object]"
  end.

(** [a || b] *)
Definition js_or (a b : jsval) : jsval := if truthy a then a else b.

(** [v === 'lit'] *)
Definition is_str (v : jsval) (lit : string) : bool :=
  match v with JStr s => String.eqb s lit | _ => false end.

Fixpoint assoc (k : string) (fields : list (string * jsval)) : option jsval :=
  match fields with
  | [] => None
  | (k', v) :: rest => if String.eqb k k' then Some v else assoc k rest
  end.

(** [obj.k] for the property names the tools read; none of them is a
    member of [Object.prototype], so a missing one is [undefined].  A
    primitive or an array has none of these properties either. *)
Definition get_prop (obj : jsval) (k : string) : jsval :=
  match obj with
  | JObj fields => match assoc k fields with Some v => v | None => JUndefined end
  | _ => JUndefined
  end.

(** The white space and line terminators of one byte: TAB, LF, VT, FF,
    CR and the space. *)
Definition is_js_space (c : ascii) : bool :=
  match nat_of_ascii c with
  | 9 | 10 | 11 | 12 | 13 | 32 => true
  | _ => false
  end.

(** The white space and line terminators of two and three bytes, by
    their UTF-8 bytes: U+00A0; U+1680; U+2000 to U+200A, U+2028, U+2029,
    U+202F; U+205F; U+3000; U+FEFF. *)
Definition is_js_space2 (c1 c2 : ascii) : bool :=
  match nat_of_ascii c1, nat_of_ascii c2 with
  | 194, 160 => true
  | _, _ => false
  end.

Definition is_js_space3 (c1 c2 c3 : ascii) : bool :=
  match nat_of_ascii c1, nat_of_ascii c2 with
  | 225, 154 => Nat.eqb (nat_of_ascii c3) 128
  | 226, 128 =>
      let b := nat_of_ascii c3 in
      (Nat.leb 128 b && Nat.leb b 138) || Nat.eqb b 168 || Nat.eqb b 169
      || Nat.eqb b 175
  | 226, 129 => Nat.eqb (nat_of_ascii c3) 159
  | 227, 128 => Nat.eqb (nat_of_ascii c3) 128
  | 239, 187 => Nat.eqb (nat_of_ascii c3) 191
  | _, _ => false
  end.

(** [s.trim() === '']: every character of [s] is white space or a line
    terminator. *)
Fixpoint all_space (s : string) : bool :=
  match s with
  | EmptyString => true
  | String c1 rest1 =>
      if is_js_space c1 then all_space rest1
      else
        match rest1 with
        | EmptyString => false
        | String c2 rest2 =>
            if is_js_space2 c1 c2 then all_space rest2
            else
              match rest2 with
              | EmptyString => false
              | String c3 rest3 => is_js_space3 c1 c2 c3 && all_space rest3
              end
        end
  end.

(** [s.replace(/'/g, "''")] *)
Fixpoint escape_quotes (s : string) : string :=
  match s with
  | EmptyString => EmptyString
  | String c rest =>
      if Ascii.eqb c "'"%char
      then String "'"%char (String "'"%char (escape_quotes rest))
      else String c (escape_quotes rest)
  end.

(** Substrings, for what a message names. *)
Definition Contains (s sub : string) : Prop :=
  exists pre post, s = pre ++ sub ++ post.

Definition containsb (s sub : string) : bool :=
  match index 0 sub s with Some _ => true | None => false end.

(* ================================================================== *)
(** * Exceptions, the world, and the monad                              *)
(* ================================================================== *)

(** What a [throw] carries.  [JsError] is an [Error] built by the program
    or by the engine (a [TypeError]), [McpError] the SDK's subclass, and
    [NonError] any other thrown value. *)
Inductive thrown : Type :=
| JsError (message : string)
| McpError (code : Z) (message : string)
| NonError (v : jsval).

Definition ErrorCode_MethodNotFound : Z := (-32601)%Z.
Definition ErrorCode_InvalidParams : Z := (-32602)%Z.

(** [error instanceof Error ? error.message : String(error)].  The SDK's
    [McpError] constructor calls [super] with the code put in front of
    the message. *)
Definition error_message (e : thrown) : string :=
  match e with
  | JsError m => m
  | McpError code m => "MCP error " ++ string_of_Z code ++ ": " ++ m
  | NonError v => js_String v
  end.

(** One round trip of the connection manager. *)
Inductive db_event : Type :=
| EvConnect (connectionString : jsval)
| EvQuery (sql : string) (params : list jsval)
| EvDisconnect.

(** What the database server answers to one round trip. *)
Inductive db_reply : Type :=
| ReplyRows (rows : list jsval)
| ReplyFail (e : thrown).

(** The process state the tools share: whether the [DatabaseConnection]
    singleton holds a client, every round trip made so far (oldest
    first), and the answers the server is going to give. *)
Record world : Type := mkWorld {
  db_client : bool;
  db_trace : list db_event;
  db_script : list db_reply
}.

Inductive outcome (A : Type) : Type :=
| Returned (a : A)
| Threw (e : thrown).
Arguments Threw {A} e.

Definition M (A : Type) : Type := world -> outcome A * world.

Definition ret {A} (a : A) : M A := fun w => (Returned a, w).

Definition throw {A} (e : thrown) : M A := fun w => (Threw e, w).

Definition bind {A B} (m : M A) (k : A -> M B) : M B :=
  fun w =>
    match m w with
    | (Returned a, w') => k a w'
    | (Threw e, w') => (Threw e, w')
    end.

(** [try { m } catch (error) { h error }] *)
Definition try_catch {A} (m : M A) (h : thrown -> M A) : M A :=
  fun w =>
    match m w with
    | (Returned a, w') => (Returned a, w')
    | (Threw e, w') => h e w'
    end.

(** [try { m } finally { f }]: [f] runs on both exits, and an exception
    of [f] replaces the pending completion. *)
Definition try_finally {A B} (m : M A) (f : M B) : M A :=
  fun w =>
    match m w with
    | (r, w') =>
        match f w' with
        | (Returned _, w'') => (r, w'')
        | (Threw e, w'') => (Threw e, w'')
        end
    end.

Declare Scope js_scope.
Delimit Scope js_scope with js.
Notation "x <- m ;; k" := (bind m (fun x => k))
  (at level 61, m at next level, right associativity) : js_scope.
Notation "m ;; k" := (bind m (fun _ => k))
  (at level 61, right associativity) : js_scope.
Local Open Scope js_scope.

(** Modelled from the spec: [DatabaseConnection] ([src/utils/connection.ts]
    is not among the sources).  [connect] acquires the handle for a
    connection string or fails, and a failure leaves no handle behind;
    [query] sends one statement with its positional parameters and gives
    the rows or fails; [disconnect] releases the handle.  The server's
    answers are read off [db_script]; a script that has run out answers
    with no rows. *)
Definition next_reply (w : world) : db_reply * list db_reply :=
  match db_script w with
  | [] => (ReplyRows [], [])
  | r :: rest => (r, rest)
  end.

(** Modelled from the spec: [DatabaseConnection.connect], which on
    failure leaves no handle held. *)
Definition db_connect (connectionString : jsval) : M unit :=
  fun w =>
    let tr := (db_trace w ++ [EvConnect connectionString])%list in
    match next_reply w with
    | (ReplyRows _, rest) => (Returned tt, mkWorld true tr rest)
    | (ReplyFail e, rest) => (Threw e, mkWorld false tr rest)
    end.

(** Modelled from the spec: [DatabaseConnection.query], one statement
    with its positional parameters. *)
Definition db_query (sql : string) (params : list jsval) : M (list jsval) :=
  fun w =>
    let tr := (db_trace w ++ [EvQuery sql params])%list in
    match next_reply w with
    | (ReplyRows rows, rest) => (Returned rows, mkWorld (db_client w) tr rest)
    | (ReplyFail e, rest) => (Threw e, mkWorld (db_client w) tr rest)
    end.

(** Modelled from the spec: [DatabaseConnection.disconnect], which
    releases the handle. *)
Definition db_disconnect : M unit :=
  fun w => (Returned tt, mkWorld false (db_trace w ++ [EvDisconnect])%list (db_script w)).

(* ================================================================== *)
(** * SQL texts                                                         *)
(* ================================================================== *)

(** The statements the operations send, with the places where a value
    is spliced into the text as arguments. *)

(** [_getFunctions], the SELECT before the optional name filter *)
Definition sql_getFunctions : string :=
  "
      SELECT 
        p.proname AS name,
        l.lanname AS language,
        pg_get_function_result(p.oid) AS " ++ dq ++ "returnType" ++ dq ++ ",
        pg_get_function_arguments(p.oid) AS " ++ dq ++ "arguments" ++ dq ++ ",
        CASE
          WHEN p.provolatile = 'i' THEN 'IMMUTABLE'
          WHEN p.provolatile = 's' THEN 'STABLE'
          WHEN p.provolatile = 'v' THEN 'VOLATILE'
        END AS volatility,
        pg_get_functiondef(p.oid) AS definition,
        a.rolname AS owner
      FROM pg_proc p
      JOIN pg_namespace n ON p.pronamespace = n.oid
      JOIN pg_language l ON p.prolang = l.oid
      JOIN pg_authid a ON p.proowner = a.oid
      WHERE n.nspname = $1
    ".

(** [_createFunction] *)
Definition sql_createFunction (createOrReplace schema functionName parameters returnType language volatility security functionBody : string) : string :=
  "
      " ++ createOrReplace ++ " FUNCTION " ++ schema ++ "." ++ functionName ++ "(" ++ parameters ++ ")
      RETURNS " ++ returnType ++ "
      LANGUAGE " ++ language ++ "
      " ++ volatility ++ "
      SECURITY " ++ security ++ "
      AS $function$
      " ++ functionBody ++ "
      $function$;
    ".

(** [_createRLSPolicy], before the TO, USING and WITH CHECK parts *)
Definition sql_createRLSPolicy (createOrReplace policyName schema tableName command : string) : string :=
  "
      " ++ createOrReplace ++ " POLICY " ++ policyName ++ "
      ON " ++ schema ++ "." ++ tableName ++ "
      FOR " ++ command ++ "
    ".

(** [_editRLSPolicy] *)
Definition sql_editRLSPolicy (policyName schema tableName alterClauses : string) : string :=
  "
      ALTER POLICY " ++ policyName ++ "
      ON " ++ schema ++ "." ++ tableName ++ "
      " ++ alterClauses ++ ";
    ".

(** [_getRLSPolicies], the SELECT before the optional table filter *)
Definition sql_getRLSPolicies : string :=
  "
      SELECT 
        schemaname,
        tablename,
        policyname,
        roles,
        cmd,
        qual as " ++ dq ++ "using" ++ dq ++ ",
        with_check as " ++ dq ++ "check" ++ dq ++ "
      FROM pg_policies
      WHERE schemaname = $1
    ".

(** [getDatabaseComment], table and sequence *)
Definition sql_comment_regclass (schema objectName : string) : string :=
  "SELECT obj_description(to_regclass('" ++ schema ++ "." ++ objectName ++ "')::oid) AS comment".

(** [getDatabaseComment], column *)
Definition sql_comment_column (objectName schema parentObject : string) : string :=
  "SELECT col_description(
          (SELECT oid FROM pg_class WHERE relname = '" ++ objectName ++ "' AND relnamespace = (SELECT oid FROM pg_namespace WHERE nspname = '" ++ schema ++ "')),
          (SELECT attnum FROM pg_attribute WHERE attrelid = (SELECT oid FROM pg_class WHERE relname = '" ++ parentObject ++ "' AND relnamespace = (SELECT oid FROM pg_namespace WHERE nspname = '" ++ schema ++ "')) AND attname = '" ++ objectName ++ "')
        ) AS comment".

(** [getDatabaseComment], function *)
Definition sql_comment_function (objectName schema : string) : string :=
  "SELECT pg_description.description AS comment
          FROM pg_proc
          JOIN pg_namespace ON pg_proc.pronamespace = pg_namespace.oid
          JOIN pg_description ON pg_description.objoid = pg_proc.oid
          WHERE pg_proc.proname = '" ++ objectName ++ "'
          AND pg_namespace.nspname = '" ++ schema ++ "'".

(** [getDatabaseComment], policy *)
Definition sql_comment_policy (objectName parentObject schema : string) : string :=
  "SELECT pg_description.description AS comment
          FROM pg_policy
          JOIN pg_class ON pg_policy.polrelid = pg_class.oid
          JOIN pg_namespace ON pg_class.relnamespace = pg_namespace.oid
          JOIN pg_description ON pg_description.objoid = pg_policy.oid
          WHERE pg_policy.polname = '" ++ objectName ++ "'
          AND pg_class.relname = '" ++ parentObject ++ "'
          AND pg_namespace.nspname = '" ++ schema ++ "'".

(** [getDatabaseComment], trigger *)
Definition sql_comment_trigger (objectName parentObject schema : string) : string :=
  "SELECT pg_description.description AS comment
          FROM pg_trigger
          JOIN pg_class ON pg_trigger.tgrelid = pg_class.oid
          JOIN pg_namespace ON pg_class.relnamespace = pg_namespace.oid
          JOIN pg_description ON pg_description.objoid = pg_trigger.oid
          WHERE pg_trigger.tgname = '" ++ objectName ++ "'
          AND pg_class.relname = '" ++ parentObject ++ "'
          AND pg_namespace.nspname = '" ++ schema ++ "'".

(** [getDatabaseComment], constraint *)
Definition sql_comment_constraint (objectName parentObject schema : string) : string :=
  "SELECT pg_description.description AS comment
          FROM pg_constraint
          JOIN pg_class ON pg_constraint.conrelid = pg_class.oid
          JOIN pg_namespace ON pg_class.relnamespace = pg_namespace.oid
          JOIN pg_description ON pg_description.objoid = pg_constraint.oid
          WHERE pg_constraint.conname = '" ++ objectName ++ "'
          AND pg_class.relname = '" ++ parentObject ++ "'
          AND pg_namespace.nspname = '" ++ schema ++ "'".

(** [getDatabaseComment], index *)
Definition sql_comment_index (objectName schema : string) : string :=
  "SELECT pg_description.description AS comment
          FROM pg_index
          JOIN pg_class idx ON pg_index.indexrelid = idx.oid
          JOIN pg_namespace ON idx.relnamespace = pg_namespace.oid
          JOIN pg_description ON pg_description.objoid = idx.oid
          WHERE idx.relname = '" ++ objectName ++ "'
          AND pg_namespace.nspname = '" ++ schema ++ "'".

(** [getMetrics], raw cache statistics *)
Definition sql_rawStats : string :=
  "SELECT
      datname,
      COALESCE(blks_hit, 0) as hits,
      COALESCE(blks_read, 0) as reads
    FROM pg_stat_database
    WHERE datname = current_database()".

(** [getMetrics], cache hit ratio *)
Definition sql_cacheHit : string :=
  "WITH stats AS (
      SELECT
        COALESCE(blks_hit, 0) as hits,
        COALESCE(blks_read, 0) as reads
      FROM pg_stat_database
      WHERE datname = current_database()
    )
    SELECT
      CASE
        WHEN (hits + reads) = 0 THEN 0
        ELSE ROUND((hits::float / (hits + reads)::float)::numeric, 2)
      END as ratio
    FROM stats".

(** [getMetrics], table sizes *)
Definition sql_tableSizes : string :=
  "SELECT 
      tablename,
      pg_size_pretty(pg_table_size(schemaname || '.' || tablename)) as size
    FROM pg_tables 
    WHERE schemaname = 'public'".

(* ================================================================== *)
(** * src/tools/functions.ts: the database operations                   *)
(* ================================================================== *)

(** [interface FunctionResult] (and [CommentResult], the same shape). *)
Record FunctionResult : Type := mkResult {
  success : bool;
  message : string;
  details : jsval
}.

(** A parameter written [p = 'public']: the default stands in for
    [undefined] only. *)
Definition default_arg (v d : jsval) : jsval :=
  match v with JUndefined => d | _ => v end.

(** What every [catch (error)] of the operations returns. *)
Definition failed (what : string) (error : thrown) : M FunctionResult :=
  ret (mkResult false (what ++ ": " ++ error_message error) JNull).

Definition _getFunctions (connectionString functionName schema0 : jsval)
  : M FunctionResult :=
  let schema := default_arg schema0 (JStr "public") in
  try_finally
    (try_catch
       (db_connect connectionString ;;
        let query := sql_getFunctions in
        let params := [schema] in
        let query :=
          if truthy functionName then query ++ " AND p.proname = $2" else query in
        let params :=
          if truthy functionName then (params ++ [functionName])%list else params in
        let query := query ++ " ORDER BY p.proname" in
        functions <- db_query query params ;;
        ret (mkResult true
               (if truthy functionName
                then "Function information for " ++ js_String functionName
                else "Found " ++ string_of_Z (Z.of_nat (length functions))
                     ++ " functions in schema " ++ js_String schema)
               (JArr functions)))
       (failed "Failed to get function information"))
    db_disconnect.

Record create_function_options : Type := {
  cf_language : jsval;
  cf_volatility : jsval;
  cf_schema : jsval;
  cf_security : jsval;
  cf_replace : jsval
}.

Definition _createFunction
    (connectionString functionName parameters returnType functionBody : jsval)
    (options : create_function_options) : M FunctionResult :=
  try_finally
    (try_catch
       (db_connect connectionString ;;
        let language := js_or (cf_language options) (JStr "plpgsql") in
        let volatility := js_or (cf_volatility options) (JStr "VOLATILE") in
        let schema := js_or (cf_schema options) (JStr "public") in
        let security := js_or (cf_security options) (JStr "INVOKER") in
        let createOrReplace :=
          if truthy (cf_replace options) then "CREATE OR REPLACE" else "CREATE" in
        let sql :=
          sql_createFunction createOrReplace (js_String schema)
            (js_String functionName) (js_String parameters)
            (js_String returnType) (js_String language)
            (js_String volatility) (js_String security)
            (js_String functionBody) in
        db_query sql [] ;;
        ret (mkResult true
               ("Function " ++ js_String functionName ++ " created successfully")
               (JObj [("name", functionName); ("schema", schema);
                      ("returnType", returnType); ("language", language);
                      ("volatility", volatility); ("security", security)])))
       (failed "Failed to create function"))
    db_disconnect.

Record drop_function_options : Type := {
  df_schema : jsval;
  df_ifExists : jsval;
  df_cascade : jsval
}.

Definition _dropFunction (connectionString functionName parameters : jsval)
    (options : drop_function_options) : M FunctionResult :=
  try_finally
    (try_catch
       (db_connect connectionString ;;
        let schema := js_or (df_schema options) (JStr "public") in
        let ifExists :=
          if truthy (df_ifExists options) then "IF EXISTS" else EmptyString in
        let cascade :=
          if truthy (df_cascade options) then "CASCADE" else EmptyString in
        let sql :=
          "DROP FUNCTION " ++ ifExists ++ " " ++ js_String schema ++ "."
          ++ js_String functionName in
        let sql :=
          if truthy parameters
          then sql ++ "(" ++ js_String parameters ++ ")" else sql in
        let sql :=
          if negb (string_is_empty cascade) then sql ++ " " ++ cascade else sql in
        db_query sql [] ;;
        ret (mkResult true
               ("Function " ++ js_String functionName ++ " dropped successfully")
               (JObj [("name", functionName); ("schema", schema)])))
       (failed "Failed to drop function"))
    db_disconnect.

Definition _enableRLS (connectionString tableName schema0 : jsval)
  : M FunctionResult :=
  let schema := default_arg schema0 (JStr "public") in
  try_finally
    (try_catch
       (db_connect connectionString ;;
        db_query ("ALTER TABLE " ++ js_String schema ++ "." ++ js_String tableName
                  ++ " ENABLE ROW LEVEL SECURITY") [] ;;
        ret (mkResult true
               ("Row-Level Security enabled on " ++ js_String schema ++ "."
                ++ js_String tableName)
               (JObj [("table", tableName); ("schema", schema)])))
       (failed "Failed to enable RLS"))
    db_disconnect.

Definition _disableRLS (connectionString tableName schema0 : jsval)
  : M FunctionResult :=
  let schema := default_arg schema0 (JStr "public") in
  try_finally
    (try_catch
       (db_connect connectionString ;;
        db_query ("ALTER TABLE " ++ js_String schema ++ "." ++ js_String tableName
                  ++ " DISABLE ROW LEVEL SECURITY") [] ;;
        ret (mkResult true
               ("Row-Level Security disabled on " ++ js_String schema ++ "."
                ++ js_String tableName)
               (JObj [("table", tableName); ("schema", schema)])))
       (failed "Failed to disable RLS"))
    db_disconnect.

Record create_policy_options : Type := {
  cp_schema : jsval;
  cp_command : jsval;
  cp_role : jsval;
  cp_replace : jsval
}.

Definition _createRLSPolicy
    (connectionString tableName policyName using_ check : jsval)
    (options : create_policy_options) : M FunctionResult :=
  try_finally
    (try_catch
       (db_connect connectionString ;;
        let schema := js_or (cp_schema options) (JStr "public") in
        let command := js_or (cp_command options) (JStr "ALL") in
        let createOrReplace :=
          if truthy (cp_replace options) then "CREATE OR REPLACE" else "CREATE" in
        let sql :=
          sql_createRLSPolicy createOrReplace (js_String policyName)
            (js_String schema) (js_String tableName) (js_String command) in
        let sql :=
          if truthy (cp_role options)
          then sql ++ " TO " ++ js_String (cp_role options) else sql in
        let sql := sql ++ " USING (" ++ js_String using_ ++ ")" in
        let sql :=
          if truthy check
          then sql ++ " WITH CHECK (" ++ js_String check ++ ")" else sql in
        db_query sql [] ;;
        ret (mkResult true
               ("Policy " ++ js_String policyName ++ " created successfully on "
                ++ js_String schema ++ "." ++ js_String tableName)
               (JObj [("table", tableName); ("schema", schema);
                      ("policy", policyName); ("command", command)])))
       (failed "Failed to create policy"))
    db_disconnect.

Record drop_policy_options : Type := {
  dp_schema : jsval;
  dp_ifExists : jsval
}.

Definition _dropRLSPolicy (connectionString tableName policyName : jsval)
    (options : drop_policy_options) : M FunctionResult :=
  try_finally
    (try_catch
       (db_connect connectionString ;;
        let schema := js_or (dp_schema options) (JStr "public") in
        let ifExists :=
          if truthy (dp_ifExists options) then "IF EXISTS" else EmptyString in
        db_query ("DROP POLICY " ++ ifExists ++ " " ++ js_String policyName
                  ++ " ON " ++ js_String schema ++ "." ++ js_String tableName) [] ;;
        ret (mkResult true
               ("Policy " ++ js_String policyName ++ " dropped successfully from "
                ++ js_String schema ++ "." ++ js_String tableName)
               (JObj [("table", tableName); ("schema", schema);
                      ("policy", policyName)])))
       (failed "Failed to drop policy"))
    db_disconnect.

(** [xs.join(sep)] *)
Definition js_join (sep : string) (xs : list jsval) : string :=
  String.concat sep
    (map (fun x => match x with
                   | JUndefined | JNull => EmptyString
                   | _ => js_String x
                   end) xs).

(** [roles.length === 0 ? 'PUBLIC' : roles.join(', ')] for whatever
    [roles] holds: only an array has [join], [null] has no properties
    at all. *)
Definition rolesString (roles : jsval) : M string :=
  match roles with
  | JArr [] => ret "PUBLIC"
  | JArr xs => ret (js_join ", " xs)
  | JNull => throw (JsError "Cannot read properties of null (reading 'length')")
  | JStr EmptyString => ret "PUBLIC"
  | JObj fields =>
      match assoc "length" fields with
      | Some (JNum (mkNumber NumZero _)) => ret "PUBLIC"
      | _ => throw (JsError "options.roles.join is not a function")
      end
  | _ => throw (JsError "options.roles.join is not a function")
  end.

Record edit_policy_options : Type := {
  ep_schema : jsval;
  ep_roles : jsval;
  ep_using : jsval;
  ep_check : jsval
}.

Definition is_undefined (v : jsval) : bool :=
  match v with JUndefined => true | _ => false end.

Definition _editRLSPolicy (connectionString tableName policyName : jsval)
    (options : edit_policy_options) : M FunctionResult :=
  try_finally
    (try_catch
       (db_connect connectionString ;;
        let schema := js_or (ep_schema options) (JStr "public") in
        toClause <-
          (if negb (is_undefined (ep_roles options))
           then s <- rolesString (ep_roles options) ;; ret ["TO " ++ s]
           else ret []) ;;
        let usingClause :=
          if negb (is_undefined (ep_using options))
          then ["USING (" ++ js_String (ep_using options) ++ ")"] else [] in
        let checkClause :=
          if negb (is_undefined (ep_check options))
          then ["WITH CHECK (" ++ js_String (ep_check options) ++ ")"] else [] in
        let alterClauses := (toClause ++ usingClause ++ checkClause)%list in
        if Nat.eqb (length alterClauses) 0
        then ret (mkResult false "No changes specified for the policy."
                    (JObj [("table", tableName); ("schema", schema);
                           ("policy", policyName)]))
        else
          let sql :=
            sql_editRLSPolicy (js_String policyName) (js_String schema)
              (js_String tableName)
              (String.concat (String "010"%char EmptyString) alterClauses) in
          db_query sql [] ;;
          ret (mkResult true
                 ("Policy " ++ js_String policyName ++ " on " ++ js_String schema
                  ++ "." ++ js_String tableName ++ " updated successfully.")
                 (JObj [("table", tableName); ("schema", schema);
                        ("policy", policyName);
                        ("changes",
                         JObj [("schema", ep_schema options);
                               ("roles", ep_roles options);
                               ("using", ep_using options);
                               ("check", ep_check options)])])))
       (failed "Failed to edit policy"))
    db_disconnect.

Definition _getRLSPolicies (connectionString tableName schema0 : jsval)
  : M FunctionResult :=
  let schema := default_arg schema0 (JStr "public") in
  try_finally
    (try_catch
       (db_connect connectionString ;;
        let query := sql_getRLSPolicies in
        let params := [schema] in
        let query :=
          if truthy tableName then query ++ " AND tablename = $2" else query in
        let params :=
          if truthy tableName then (params ++ [tableName])%list else params in
        let query := query ++ " ORDER BY tablename, policyname" in
        policies <- db_query query params ;;
        ret (mkResult true
               (if truthy tableName
                then "Policies for table " ++ js_String schema ++ "."
                     ++ js_String tableName
                else "All policies in schema " ++ js_String schema)
               (JArr policies)))
       (failed "Failed to get policies"))
    db_disconnect.

(* ================================================================== *)
(** * src/types/tool.ts: descriptors and envelopes                      *)
(* ================================================================== *)

(** The file of the type declarations is not among the sources; the
    shapes below are the ones the tools build and the specification
    describes. *)

(** One block of [content]; the server only makes text blocks. *)
Record content_block : Type := mkText {
  ctype : string;
  text : string
}.

(** Modelled from the spec: [ToolOutput], the result envelope.
    [isError] is optional and left out on success; left out reads as
    [false]. *)
Record ToolOutput : Type := mkOutput {
  content : list content_block;
  isError : bool
}.

Definition ok_output (t : string) : ToolOutput :=
  mkOutput [mkText "text" t] false.

Definition error_output (t : string) : ToolOutput :=
  mkOutput [mkText "text" t] true.

(** The text of an envelope made here: its one block. *)
Definition output_text (o : ToolOutput) : string :=
  match content o with
  | [b] => text b
  | _ => EmptyString
  end.

(** A [z.object] input schema: the fields with their types and whether
    they are [.optional()].  The [.describe] texts are documentation and
    are not kept. *)
Inductive zod_type : Type :=
| ZString
| ZBoolean
| ZEnum (values : list string)
| ZArrayOfString.

Record zod_field : Type := mkField {
  zf_name : string;
  zf_type : zod_type;
  zf_optional : bool
}.

Definition GetConnectionStringFn : Type := jsval -> M jsval.

(** Modelled from the spec: [interface PostgresTool], the tool
    descriptor. *)
Record PostgresTool : Type := mkTool {
  name : string;
  description : string;
  inputSchema : list zod_field;
  execute : jsval -> GetConnectionStringFn -> M ToolOutput
}.

(** [const { connectionString: connStringArg, ... } = args]: reading the
    fields off [undefined] or [null] is a [TypeError]; anything else
    just has or lacks them. *)
Definition destructure (args : jsval) : M jsval :=
  match args with
  | JUndefined =>
      throw (JsError "Cannot destructure property 'connectionString' of 'args' as it is undefined.")
  | JNull =>
      throw (JsError "Cannot destructure property 'connectionString' of 'args' as it is null.")
  | _ => ret args
  end.

(* ================================================================== *)
(** * JSON.stringify                                                    *)
(* ================================================================== *)

Definition nl : string := String "010"%char EmptyString.

Definition hex_digit (n : nat) : ascii :=
  match get n "0123456789abcdef" with
  | Some c => c
  | None => "0"%char
  end.

(** One character inside a JSON string literal. *)
Definition quote_char (c : ascii) : string :=
  let n := nat_of_ascii c in
  let bs := String "092"%char EmptyString in
  match n with
  | 8 => bs ++ "b"
  | 9 => bs ++ "t"
  | 10 => bs ++ "n"
  | 12 => bs ++ "f"
  | 13 => bs ++ "r"
  | 34 => bs ++ dq
  | 92 => bs ++ bs
  | _ =>
      if Nat.ltb n 32
      then bs ++ "u00" ++ String (hex_digit (n / 16)) (String (hex_digit (n mod 16)) EmptyString)
      else String c EmptyString
  end.

Fixpoint quote_body (s : string) : string :=
  match s with
  | EmptyString => EmptyString
  | String c rest => quote_char c ++ quote_body rest
  end.

Definition QuoteJSONString (s : string) : string := dq ++ quote_body s ++ dq.

(** The brackets around the serialised members, on one line without a
    gap and one member per line with it. *)
Definition json_wrap (open close gap stepback indent : string)
    (members : list string) : string :=
  match members with
  | [] => open ++ close
  | _ =>
      if string_is_empty gap
      then open ++ String.concat "," members ++ close
      else open ++ nl ++ indent
           ++ String.concat ("," ++ nl ++ indent) members
           ++ nl ++ stepback ++ close
  end.

(** [JSON.stringify(v, null, gap)] at indentation [indent]; [None] is
    the [undefined] it gives for [undefined].  Properties are written in
    the order the object lists them. *)
Fixpoint json_property (gap indent : string) (v : jsval) : option string :=
  match v with
  | JUndefined => None
  | JNull => Some "null"
  | JBool true => Some "true"
  | JBool false => Some "false"
  | JNum n =>
      Some (match num_class n with
            | NumNaN | NumInfinite => "null"
            | _ => num_String n
            end)
  | JStr s => Some (QuoteJSONString s)
  | JArr xs =>
      Some (json_wrap "[" "]" gap indent (indent ++ gap)
              (map (fun x =>
                      match json_property gap (indent ++ gap) x with
                      | Some s => s
                      | None => "null"
                      end) xs))
  | JObj fields =>
      Some (json_wrap "{" "}" gap indent (indent ++ gap)
              (flat_map (fun kv =>
                           match json_property gap (indent ++ gap) (snd kv) with
                           | Some s =>
                               [QuoteJSONString (fst kv) ++ ":"
                                ++ (if string_is_empty gap then EmptyString else " ")
                                ++ s]
                           | None => []
                           end) fields))
  end.

(** [JSON.stringify(v)] inside a template literal. *)
Definition JSON_stringify (v : jsval) : string :=
  match json_property EmptyString EmptyString v with
  | Some s => s
  | None => "undefined"
  end.

(** [JSON.stringify(details, null, 2) || message] *)
Definition JSON_stringify_2_or (v : jsval) (fallback : string) : string :=
  match json_property "  " EmptyString v with
  | Some s => if string_is_empty s then fallback else s
  | None => fallback
  end.

(* ================================================================== *)
(** * src/tools/functions.ts: the tools                                 *)
(* ================================================================== *)

(** The common tail of the tools that change something:
    the message, with the details when there are any, or the failure. *)
Definition report (result : FunctionResult) : ToolOutput :=
  if success result
  then ok_output (message result
                  ++ (if truthy (details result)
                      then " Details: " ++ JSON_stringify (details result)
                      else EmptyString))
  else error_output (message result).

(** The common tail of the tools that read: the rows, or the failure. *)
Definition report_rows (result : FunctionResult) : ToolOutput :=
  if success result
  then ok_output (JSON_stringify_2_or (details result) (message result))
  else error_output (message result).

Definition opt (n : string) (t : zod_type) : zod_field := mkField n t true.
Definition req (n : string) (t : zod_type) : zod_field := mkField n t false.

Definition getFunctionsTool : PostgresTool := {|
  name := "pg_get_functions";
  description := "Get information about PostgreSQL functions";
  inputSchema := [opt "connectionString" ZString; opt "functionName" ZString;
                  opt "schema" ZString];
  execute := fun args getConnectionStringVal =>
    args <- destructure args ;;
    resolvedConnString <- getConnectionStringVal (get_prop args "connectionString") ;;
    result <- _getFunctions resolvedConnString (get_prop args "functionName")
                (get_prop args "schema") ;;
    ret (report_rows result)
|}.

Definition createFunctionTool : PostgresTool := {|
  name := "pg_create_function";
  description := "Create or replace a PostgreSQL function";
  inputSchema := [opt "connectionString" ZString; req "functionName" ZString;
                  req "parameters" ZString; req "returnType" ZString;
                  req "functionBody" ZString;
                  req "language" (ZEnum ["sql"; "plpgsql"; "plpython3u"]);
                  req "volatility" (ZEnum ["VOLATILE"; "STABLE"; "IMMUTABLE"]);
                  req "schema" ZString;
                  req "security" (ZEnum ["INVOKER"; "DEFINER"]);
                  req "replace" ZBoolean];
  execute := fun args getConnectionStringVal =>
    args <- destructure args ;;
    resolvedConnString <- getConnectionStringVal (get_prop args "connectionString") ;;
    result <- _createFunction resolvedConnString (get_prop args "functionName")
                (get_prop args "parameters") (get_prop args "returnType")
                (get_prop args "functionBody")
                {| cf_language := get_prop args "language";
                   cf_volatility := get_prop args "volatility";
                   cf_schema := get_prop args "schema";
                   cf_security := get_prop args "security";
                   cf_replace := get_prop args "replace" |} ;;
    ret (report result)
|}.

Definition dropFunctionTool : PostgresTool := {|
  name := "pg_drop_function";
  description := "Drop a PostgreSQL function";
  inputSchema := [opt "connectionString" ZString; req "functionName" ZString;
                  req "parameters" ZString; req "schema" ZString;
                  req "ifExists" ZBoolean; req "cascade" ZBoolean];
  execute := fun args getConnectionStringVal =>
    args <- destructure args ;;
    resolvedConnString <- getConnectionStringVal (get_prop args "connectionString") ;;
    result <- _dropFunction resolvedConnString (get_prop args "functionName")
                (get_prop args "parameters")
                {| df_schema := get_prop args "schema";
                   df_ifExists := get_prop args "ifExists";
                   df_cascade := get_prop args "cascade" |} ;;
    ret (report result)
|}.

Definition enableRLSTool : PostgresTool := {|
  name := "pg_enable_rls";
  description := "Enable Row-Level Security on a table";
  inputSchema := [opt "connectionString" ZString; req "tableName" ZString;
                  req "schema" ZString];
  execute := fun args getConnectionStringVal =>
    args <- destructure args ;;
    resolvedConnString <- getConnectionStringVal (get_prop args "connectionString") ;;
    result <- _enableRLS resolvedConnString (get_prop args "tableName")
                (get_prop args "schema") ;;
    ret (report result)
|}.

Definition disableRLSTool : PostgresTool := {|
  name := "pg_disable_rls";
  description := "Disable Row-Level Security on a table";
  inputSchema := [opt "connectionString" ZString; req "tableName" ZString;
                  req "schema" ZString];
  execute := fun args getConnectionStringVal =>
    args <- destructure args ;;
    resolvedConnString <- getConnectionStringVal (get_prop args "connectionString") ;;
    result <- _disableRLS resolvedConnString (get_prop args "tableName")
                (get_prop args "schema") ;;
    ret (report result)
|}.

Definition createRLSPolicyTool : PostgresTool := {|
  name := "pg_create_rls_policy";
  description := "Create a Row-Level Security policy";
  inputSchema := [opt "connectionString" ZString; req "tableName" ZString;
                  req "policyName" ZString; req "using" ZString;
                  req "check" ZString; req "schema" ZString;
                  req "command" (ZEnum ["ALL"; "SELECT"; "INSERT"; "UPDATE"; "DELETE"]);
                  req "role" ZString; req "replace" ZBoolean];
  execute := fun args getConnectionStringVal =>
    args <- destructure args ;;
    resolvedConnString <- getConnectionStringVal (get_prop args "connectionString") ;;
    result <- _createRLSPolicy resolvedConnString (get_prop args "tableName")
                (get_prop args "policyName") (get_prop args "using")
                (get_prop args "check")
                {| cp_schema := get_prop args "schema";
                   cp_command := get_prop args "command";
                   cp_role := get_prop args "role";
                   cp_replace := get_prop args "replace" |} ;;
    ret (report result)
|}.

Definition dropRLSPolicyTool : PostgresTool := {|
  name := "pg_drop_rls_policy";
  description := "Drop a Row-Level Security policy";
  inputSchema := [opt "connectionString" ZString; req "tableName" ZString;
                  req "policyName" ZString; req "schema" ZString;
                  req "ifExists" ZBoolean];
  execute := fun args getConnectionStringVal =>
    args <- destructure args ;;
    resolvedConnString <- getConnectionStringVal (get_prop args "connectionString") ;;
    result <- _dropRLSPolicy resolvedConnString (get_prop args "tableName")
                (get_prop args "policyName")
                {| dp_schema := get_prop args "schema";
                   dp_ifExists := get_prop args "ifExists" |} ;;
    ret (report result)
|}.

Definition editRLSPolicyTool : PostgresTool := {|
  name := "pg_edit_rls_policy";
  description := "Edit an existing Row-Level Security policy";
  inputSchema := [opt "connectionString" ZString; req "tableName" ZString;
                  req "policyName" ZString; req "schema" ZString;
                  req "roles" ZArrayOfString; req "using" ZString;
                  req "check" ZString];
  execute := fun args getConnectionStringVal =>
    args <- destructure args ;;
    resolvedConnString <- getConnectionStringVal (get_prop args "connectionString") ;;
    result <- _editRLSPolicy resolvedConnString (get_prop args "tableName")
                (get_prop args "policyName")
                {| ep_schema := get_prop args "schema";
                   ep_roles := get_prop args "roles";
                   ep_using := get_prop args "using";
                   ep_check := get_prop args "check" |} ;;
    ret (report result)
|}.

Definition getRLSPoliciesTool : PostgresTool := {|
  name := "pg_get_rls_policies";
  description := "Get Row-Level Security policies";
  inputSchema := [opt "connectionString" ZString; opt "tableName" ZString;
                  opt "schema" ZString];
  execute := fun args getConnectionStringVal =>
    args <- destructure args ;;
    resolvedConnString <- getConnectionStringVal (get_prop args "connectionString") ;;
    result <- _getRLSPolicies resolvedConnString (get_prop args "tableName")
                (get_prop args "schema") ;;
    ret (report_rows result)
|}.

(** ** The consolidated tools *)

(** The operation sets, as the [z.enum] of each schema lists them. *)
Definition functions_operations : list string := ["get"; "create"; "drop"].

Definition rls_operations : list string :=
  ["enable"; "disable"; "create_policy"; "edit_policy"; "drop_policy";
   "get_policies"].

(** [if (!field) missingFields.push('field')] *)
Definition missing (field : string) (v : jsval) : list string :=
  if truthy v then [] else [field].

(** [parameters]: [undefined], [null] and a blank string become the
    empty string, anything else its [String]. *)
Definition normalizedParameters (parameters : jsval) : jsval :=
  match parameters with
  | JUndefined | JNull => JStr EmptyString
  | JStr s => if all_space s then JStr EmptyString else JStr s
  | v => JStr (js_String v)
  end.

(** [manageFunctionsTool.execute].  The connection string is resolved
    before the [try] and before the operation is looked at.  (The
    diagnostic [console.error] of the create branch is not kept.) *)
Definition manageFunctionsTool_execute (args : jsval)
    (getConnectionStringVal : GetConnectionStringFn) : M ToolOutput :=
  args <- destructure args ;;
  let operation := get_prop args "operation" in
  let functionName := get_prop args "functionName" in
  let schema := get_prop args "schema" in
  let parameters := get_prop args "parameters" in
  let returnType := get_prop args "returnType" in
  let functionBody := get_prop args "functionBody" in
  resolvedConnString <- getConnectionStringVal (get_prop args "connectionString") ;;
  try_catch
    (if is_str operation "get" then
       result <- _getFunctions resolvedConnString functionName schema ;;
       if success result
       then ret (ok_output (JSON_stringify_2_or (details result) (message result)))
       else ret (report result)
     else if is_str operation "create" then
       let missingFields :=
         (missing "functionName" functionName
          ++ missing "returnType" returnType
          ++ missing "functionBody" functionBody)%list in
       if Nat.ltb 0 (length missingFields)
       then ret (error_output
                   ("Error: Missing required fields: "
                    ++ String.concat ", " missingFields
                    ++ ". Note: parameters can be empty string " ++ dq ++ dq
                    ++ " for functions with no parameters"))
       else
         result <- _createFunction resolvedConnString functionName
                     (normalizedParameters parameters) returnType functionBody
                     {| cf_language := get_prop args "language";
                        cf_volatility := get_prop args "volatility";
                        cf_schema := schema;
                        cf_security := get_prop args "security";
                        cf_replace := get_prop args "replace" |} ;;
         ret (report result)
     else if is_str operation "drop" then
       if negb (truthy functionName)
       then ret (error_output "Error: functionName is required for drop operation")
       else
         result <- _dropFunction resolvedConnString functionName parameters
                     {| df_schema := schema;
                        df_ifExists := get_prop args "ifExists";
                        df_cascade := get_prop args "cascade" |} ;;
         ret (report result)
     else
       ret (error_output
              ("Error: Unknown operation " ++ dq ++ js_String operation ++ dq
               ++ ". Supported operations: get, create, drop")))
    (fun error =>
       ret (error_output
              ("Error executing " ++ js_String operation ++ " operation: "
               ++ error_message error))).

Definition manageFunctionsTool : PostgresTool := {|
  name := "pg_manage_functions";
  description :=
    "Manage PostgreSQL functions - get, create, or drop functions with a single tool. Examples: operation=" ++ dq ++ "get" ++ dq ++ " to list functions, operation=" ++ dq ++ "create" ++ dq ++ " with functionName=" ++ dq ++ "test_func" ++ dq ++ ", parameters=" ++ dq ++ dq ++ " (empty for no params), returnType=" ++ dq ++ "TEXT" ++ dq ++ ", functionBody=" ++ dq ++ "SELECT 'Hello'" ++ dq;
  inputSchema := [opt "connectionString" ZString;
                  req "operation" (ZEnum functions_operations);
                  opt "functionName" ZString; opt "schema" ZString;
                  opt "parameters" ZString; opt "returnType" ZString;
                  opt "functionBody" ZString;
                  opt "language" (ZEnum ["sql"; "plpgsql"; "plpython3u"]);
                  opt "volatility" (ZEnum ["VOLATILE"; "STABLE"; "IMMUTABLE"]);
                  opt "security" (ZEnum ["INVOKER"; "DEFINER"]);
                  opt "replace" ZBoolean;
                  opt "ifExists" ZBoolean; opt "cascade" ZBoolean];
  execute := manageFunctionsTool_execute
|}.

(** [manageRLSTool.execute] *)
Definition manageRLSTool_execute (args : jsval)
    (getConnectionStringVal : GetConnectionStringFn) : M ToolOutput :=
  args <- destructure args ;;
  let operation := get_prop args "operation" in
  let tableName := get_prop args "tableName" in
  let schema := get_prop args "schema" in
  let policyName := get_prop args "policyName" in
  let using_ := get_prop args "using" in
  let check := get_prop args "check" in
  resolvedConnString <- getConnectionStringVal (get_prop args "connectionString") ;;
  try_catch
    (if is_str operation "enable" then
       if negb (truthy tableName)
       then ret (error_output "Error: tableName is required for enable operation")
       else
         result <- _enableRLS resolvedConnString tableName schema ;;
         ret (report result)
     else if is_str operation "disable" then
       if negb (truthy tableName)
       then ret (error_output "Error: tableName is required for disable operation")
       else
         result <- _disableRLS resolvedConnString tableName schema ;;
         ret (report result)
     else if is_str operation "create_policy" then
       if negb (truthy tableName) || negb (truthy policyName) || negb (truthy using_)
       then ret (error_output
                   "Error: tableName, policyName, and using are required for create_policy operation")
       else
         result <- _createRLSPolicy resolvedConnString tableName policyName
                     using_ check
                     {| cp_schema := schema;
                        cp_command := get_prop args "command";
                        cp_role := get_prop args "role";
                        cp_replace := get_prop args "replace" |} ;;
         ret (report result)
     else if is_str operation "edit_policy" then
       if negb (truthy tableName) || negb (truthy policyName)
       then ret (error_output
                   "Error: tableName and policyName are required for edit_policy operation")
       else
         result <- _editRLSPolicy resolvedConnString tableName policyName
                     {| ep_schema := schema;
                        ep_roles := get_prop args "roles";
                        ep_using := using_;
                        ep_check := check |} ;;
         ret (report result)
     else if is_str operation "drop_policy" then
       if negb (truthy tableName) || negb (truthy policyName)
       then ret (error_output
                   "Error: tableName and policyName are required for drop_policy operation")
       else
         result <- _dropRLSPolicy resolvedConnString tableName policyName
                     {| dp_schema := schema;
                        dp_ifExists := get_prop args "ifExists" |} ;;
         ret (report result)
     else if is_str operation "get_policies" then
       result <- _getRLSPolicies resolvedConnString tableName schema ;;
       if success result
       then ret (ok_output (JSON_stringify_2_or (details result) (message result)))
       else ret (report result)
     else
       ret (error_output
              ("Error: Unknown operation " ++ dq ++ js_String operation ++ dq
               ++ ". Supported operations: enable, disable, create_policy, edit_policy, drop_policy, get_policies")))
    (fun error =>
       ret (error_output
              ("Error executing " ++ js_String operation ++ " operation: "
               ++ error_message error))).

Definition manageRLSTool : PostgresTool := {|
  name := "pg_manage_rls";
  description :=
    "Manage PostgreSQL Row-Level Security - enable/disable RLS and manage policies. Examples: operation=" ++ dq ++ "enable" ++ dq ++ " with tableName=" ++ dq ++ "users" ++ dq ++ ", operation=" ++ dq ++ "create_policy" ++ dq ++ " with tableName, policyName, using, check";
  inputSchema := [opt "connectionString" ZString;
                  req "operation" (ZEnum rls_operations);
                  opt "tableName" ZString; opt "schema" ZString;
                  opt "policyName" ZString; opt "using" ZString;
                  opt "check" ZString;
                  opt "command" (ZEnum ["ALL"; "SELECT"; "INSERT"; "UPDATE"; "DELETE"]);
                  opt "role" ZString; opt "replace" ZBoolean;
                  opt "roles" ZArrayOfString; opt "ifExists" ZBoolean];
  execute := manageRLSTool_execute
|}.

(* ================================================================== *)
(** * src/tools/comment.ts                                              *)
(* ================================================================== *)

Record comment_options : Type := {
  co_schema : jsval;
  co_parentObject : jsval;
  co_parameters : jsval
}.

(** The statement of [setDatabaseComment] for an object type, or the
    [Error] its [switch] throws. *)
Definition comment_on_sql (objectType objectName escapedComment : string)
    (schema : jsval) (options : comment_options) : M string :=
  let schema := js_String schema in
  let parent := js_String (co_parentObject options) in
  let is_ := " IS '" ++ escapedComment ++ "'" in
  let need_parent (what : string) (sql : string) : M string :=
    if negb (truthy (co_parentObject options))
    then throw (JsError ("Parent object (table name) is required for "
                         ++ what ++ " comments"))
    else ret sql in
  if String.eqb objectType "table" then
    ret ("COMMENT ON TABLE " ++ schema ++ "." ++ objectName ++ is_)
  else if String.eqb objectType "column" then
    need_parent "column"
      ("COMMENT ON COLUMN " ++ schema ++ "." ++ parent ++ "." ++ objectName ++ is_)
  else if String.eqb objectType "function" then
    let params :=
      if truthy (co_parameters options)
      then "(" ++ js_String (co_parameters options) ++ ")" else EmptyString in
    ret ("COMMENT ON FUNCTION " ++ schema ++ "." ++ objectName ++ params ++ is_)
  else if String.eqb objectType "policy" then
    need_parent "policy"
      ("COMMENT ON POLICY " ++ objectName ++ " ON " ++ schema ++ "." ++ parent ++ is_)
  else if String.eqb objectType "trigger" then
    need_parent "trigger"
      ("COMMENT ON TRIGGER " ++ objectName ++ " ON " ++ schema ++ "." ++ parent ++ is_)
  else if String.eqb objectType "constraint" then
    need_parent "constraint"
      ("COMMENT ON CONSTRAINT " ++ objectName ++ " ON " ++ schema ++ "." ++ parent ++ is_)
  else if String.eqb objectType "index" then
    ret ("COMMENT ON INDEX " ++ schema ++ "." ++ objectName ++ is_)
  else if String.eqb objectType "sequence" then
    ret ("COMMENT ON SEQUENCE " ++ schema ++ "." ++ objectName ++ is_)
  else throw (JsError ("Unsupported object type: " ++ objectType)).

Definition setDatabaseComment (connectionString : jsval)
    (objectType objectName comment : string) (options : comment_options)
  : M FunctionResult :=
  try_finally
    (try_catch
       (db_connect connectionString ;;
        let schema := js_or (co_schema options) (JStr "public") in
        let escapedComment := escape_quotes comment in
        sql <- comment_on_sql objectType objectName escapedComment schema options ;;
        db_query sql [] ;;
        ret (mkResult true
               ("Comment set successfully on " ++ objectType ++ " " ++ objectName)
               (JObj [("objectType", JStr objectType);
                      ("objectName", JStr objectName);
                      ("schema", schema);
                      ("parentObject", co_parentObject options)])))
       (failed "Failed to set comment"))
    db_disconnect.

Definition removeDatabaseComment (connectionString : jsval)
    (objectType objectName : string) (options : comment_options)
  : M FunctionResult :=
  setDatabaseComment connectionString objectType objectName "NULL" options.

(** The query of [getDatabaseComment] for an object type. *)
Definition comment_query_sql (objectType objectName : string)
    (schema : jsval) (options : comment_options) : M string :=
  let schema := js_String schema in
  let parent := js_String (co_parentObject options) in
  let need_parent (what : string) (sql : string) : M string :=
    if negb (truthy (co_parentObject options))
    then throw (JsError ("Parent object (table name) is required for "
                         ++ what ++ " comments"))
    else ret sql in
  if String.eqb objectType "table" then
    ret (sql_comment_regclass schema objectName)
  else if String.eqb objectType "column" then
    need_parent "column" (sql_comment_column objectName schema parent)
  else if String.eqb objectType "function" then
    ret (sql_comment_function objectName schema)
  else if String.eqb objectType "policy" then
    need_parent "policy" (sql_comment_policy objectName parent schema)
  else if String.eqb objectType "trigger" then
    need_parent "trigger" (sql_comment_trigger objectName parent schema)
  else if String.eqb objectType "constraint" then
    need_parent "constraint" (sql_comment_constraint objectName parent schema)
  else if String.eqb objectType "index" then
    ret (sql_comment_index objectName schema)
  else if String.eqb objectType "sequence" then
    ret (sql_comment_regclass schema objectName)
  else throw (JsError ("Unsupported object type: " ++ objectType)).

(** [v.k] where [v] may be anything: [undefined] and [null] have no
    properties to read. *)
Definition read_prop (v : jsval) (k : string) : M jsval :=
  match v with
  | JUndefined =>
      throw (JsError ("Cannot read properties of undefined (reading '" ++ k ++ "')"))
  | JNull =>
      throw (JsError ("Cannot read properties of null (reading '" ++ k ++ "')"))
  | _ => ret (get_prop v k)
  end.

Definition getDatabaseComment (connectionString : jsval)
    (objectType objectName : string) (options : comment_options)
  : M FunctionResult :=
  try_finally
    (try_catch
       (db_connect connectionString ;;
        let schema := js_or (co_schema options) (JStr "public") in
        sql <- comment_query_sql objectType objectName schema options ;;
        rows <- db_query sql [] ;;
        comment <- match rows with
                   | [] => ret JNull
                   | row :: _ => read_prop row "comment"
                   end ;;
        ret (mkResult true
               ("Comment retrieved successfully for " ++ objectType ++ " "
                ++ objectName)
               (JObj [("objectType", JStr objectType);
                      ("objectName", JStr objectName);
                      ("schema", schema);
                      ("parentObject", co_parentObject options);
                      ("comment", comment)])))
       (failed "Failed to get comment"))
    db_disconnect.

(* ================================================================== *)
(** * src/tools/analyze.ts                                              *)
(* ================================================================== *)

(** The arithmetic of [analyze.ts] is on floating-point numbers read
    from text; it is kept as the engine's, behind these operations:
    [Number.parseInt(x)]; the ratio of lines 142-156 and 171 (the first
    row's [ratio], parsed, [0] for [NaN], rounded to two places);
    [x < 0.99]; [c > m * 0.8]; [x > 1]. *)
Record js_numbers : Type := {
  Number_parseInt : jsval -> jsval;
  cacheHitRatio_of : list jsval -> jsval;
  below_099 : jsval -> bool;
  above_80_percent : jsval -> jsval -> bool;
  above_1 : jsval -> bool
}.

(** [rows[0].k] *)
Definition first_row_prop (rows : list jsval) (k : string) : M jsval :=
  read_prop (match rows with [] => JUndefined | row :: _ => row end) k.

(** The object a [reduce] fills, starting from [{}]: its own properties
    in the order the engine lists them, and its prototype when an
    assignment has replaced it ([None] is [Object.prototype], [Some JNull]
    no prototype at all). *)
Record plain_object : Type := {
  po_own : list (string * jsval);
  po_proto : option jsval
}.

Definition empty_object : plain_object := {| po_own := []; po_proto := None |}.

Definition is_digit (c : ascii) : bool :=
  Nat.leb 48 (nat_of_ascii c) && Nat.leb (nat_of_ascii c) 57.

Fixpoint digits_value (s : string) (acc : N) : option N :=
  match s with
  | EmptyString => Some acc
  | String c rest =>
      if is_digit c
      then digits_value rest (acc * 10 + N.of_nat (nat_of_ascii c - 48))%N
      else None
  end.

(** The keys that are array indices: the canonical decimal text of an
    integer from 0 to 2^32 - 2.  An object lists them first, in
    ascending order. *)
Definition array_index (k : string) : option N :=
  match k with
  | EmptyString => None
  | String c rest =>
      if Ascii.eqb c "0"%char && negb (string_is_empty rest) then None
      else
        match digits_value k 0 with
        | Some n => if (n <=? 4294967294)%N then Some n else None
        | None => None
        end
  end.

(** A new value for a key the object has: the key keeps its place. *)
Fixpoint overwrite (fields : list (string * jsval)) (k : string) (v : jsval)
  : list (string * jsval) :=
  match fields with
  | [] => []
  | (k', v') :: rest =>
      if String.eqb k k' then (k, v) :: rest else (k', v') :: overwrite rest k v
  end.

(** A new array index goes before the first key that is not a smaller
    index. *)
Fixpoint insert_index (n : N) (k : string) (v : jsval)
    (fields : list (string * jsval)) : list (string * jsval) :=
  match fields with
  | [] => [(k, v)]
  | (k', v') :: rest =>
      match array_index k' with
      | Some n' =>
          if (n' <? n)%N then (k', v') :: insert_index n k v rest
          else (k, v) :: fields
      | None => (k, v) :: fields
      end
  end.

(** An own data property is written: overwritten in place, or created
    where the engine lists it. *)
Definition define_own (fields : list (string * jsval)) (k : string) (v : jsval)
  : list (string * jsval) :=
  match assoc k fields with
  | Some _ => overwrite fields k v
  | None =>
      match array_index k with
      | Some n => insert_index n k v fields
      | None => (fields ++ [(k, v)])%list
      end
  end.

(** Whether an assignment to [__proto__] finds the accessor of
    [Object.prototype]: the object has no own property of that name, and
    neither has a prototype it was given; with no prototype there is no
    accessor. *)
Definition reaches_proto_setter (o : plain_object) : bool :=
  match assoc "__proto__" (po_own o) with
  | Some _ => false
  | None =>
      match po_proto o with
      | None => true
      | Some (JObj fields) =>
          match assoc "__proto__" fields with Some _ => false | None => true end
      | Some JNull => false
      | Some _ => true
      end
  end.

(** [acc[k] = v] on such an object.  The accessor [__proto__] replaces
    the prototype by an object or [null] and ignores any other value;
    every other assignment writes an own property. *)
Definition set_prop (o : plain_object) (k : string) (v : jsval) : plain_object :=
  if String.eqb k "__proto__" && reaches_proto_setter o then
    match v with
    | JObj _ | JArr _ | JNull => {| po_own := po_own o; po_proto := Some v |}
    | _ => o
    end
  else {| po_own := define_own (po_own o) k v; po_proto := po_proto o |}.

(** [obj.k] on such an object, for a [k] that neither [Object.prototype]
    nor [Array.prototype] has: an own property, or one of the prototype
    the object was given. *)
Definition plain_get (o : plain_object) (k : string) : jsval :=
  match assoc k (po_own o) with
  | Some v => v
  | None =>
      match po_proto o with
      | Some proto => get_prop proto k
      | None => JUndefined
      end
  end.

(** [rows.reduce((acc, row) => { acc[key row] = value row; return acc }, {})] *)
Fixpoint reduce_rows (entry : jsval -> M (string * jsval)) (rows : list jsval)
    (acc : plain_object) : M plain_object :=
  match rows with
  | [] => ret acc
  | row :: rest =>
      kv <- entry row ;;
      reduce_rows entry rest (set_prop acc (fst kv) (snd kv))
  end.

Definition getVersion : M jsval :=
  result <- db_query "SELECT version()" [] ;;
  first_row_prop result "version".

(** [row.unit ? `${row.setting}${row.unit}` : row.setting] *)
Definition setting_with_unit (row : jsval) : jsval :=
  if truthy (get_prop row "unit")
  then JStr (js_String (get_prop row "setting") ++ js_String (get_prop row "unit"))
  else get_prop row "setting".

Definition getSettings : M plain_object :=
  result <- db_query
              "SELECT name, setting, unit FROM pg_settings WHERE name IN ($1, $2, $3, $4, $5)"
              [JStr "max_connections"; JStr "shared_buffers"; JStr "work_mem";
               JStr "maintenance_work_mem"; JStr "effective_cache_size"] ;;
  reduce_rows
    (fun row =>
       name_ <- read_prop row "name" ;;
       ret (js_String name_, setting_with_unit row))
    result empty_object.

Definition getMetrics (num : js_numbers) : M jsval :=
  connections <- db_query "SELECT count(*) FROM pg_stat_activity" [] ;;
  activeQueries <-
    db_query "SELECT count(*) FROM pg_stat_activity WHERE state = 'active'" [] ;;
  rawStats <- db_query sql_rawStats [] ;;
  cacheHit <- db_query sql_cacheHit [] ;;
  let ratio := cacheHitRatio_of num cacheHit in
  tableSizes <- db_query sql_tableSizes [] ;;
  connections_count <- first_row_prop connections "count" ;;
  activeQueries_count <- first_row_prop activeQueries "count" ;;
  sizes <- reduce_rows
             (fun row =>
                tablename <- read_prop row "tablename" ;;
                ret (js_String tablename, get_prop row "size"))
             tableSizes empty_object ;;
  ret (JObj [("connections", Number_parseInt num connections_count);
             ("activeQueries", Number_parseInt num activeQueries_count);
             ("cacheHitRatio", ratio);
             ("tableSizes", JObj (po_own sizes))]).

Definition generateRecommendations (num : js_numbers) (type : string)
    (settings : plain_object) (metrics : jsval) : M (list jsval) :=
  let recommendations := [] in
  let recommendations :=
    if String.eqb type "configuration" || String.eqb type "performance" then
      let r1 :=
        if below_099 num (get_prop metrics "cacheHitRatio")
        then [JStr "Consider increasing shared_buffers to improve cache hit ratio"]
        else [] in
      let r2 :=
        if above_80_percent num (get_prop metrics "connections")
             (Number_parseInt num (plain_get settings "max_connections"))
        then [JStr "High connection usage detected. Consider increasing max_connections or implementing connection pooling"]
        else [] in
      (recommendations ++ r1 ++ r2)%list
    else recommendations in
  if String.eqb type "security" then
    superusers <- db_query "SELECT count(*) FROM pg_user WHERE usesuper = true" [] ;;
    count <- first_row_prop superusers "count" ;;
    let recommendations :=
      if above_1 num (Number_parseInt num count)
      then (recommendations
            ++ [JStr "Multiple superuser accounts detected. Review and reduce if possible"])%list
      else recommendations in
    ssl <- db_query "SHOW ssl" [] ;;
    ssl_value <- first_row_prop ssl "ssl" ;;
    ret (if is_str ssl_value "on"
         then recommendations
         else (recommendations
               ++ [JStr "SSL is not enabled. Consider enabling SSL for secure connections"])%list)
  else ret recommendations.

(** [analyzeDatabase]: the connection is made before the [try], and the
    [finally] releases it.  The result is only ever serialised, which
    shows the own properties of [settings]. *)
Definition analyzeDatabase (num : js_numbers) (connectionString : jsval)
    (analysisType : string) : M jsval :=
  db_connect connectionString ;;
  try_finally
    (version <- getVersion ;;
     settings <- getSettings ;;
     metrics <- getMetrics num ;;
     recommendations <- generateRecommendations num analysisType settings metrics ;;
     ret (JObj [("version", version); ("settings", JObj (po_own settings));
                ("metrics", metrics); ("recommendations", JArr recommendations)]))
    db_disconnect.

Definition analysis_types : list string :=
  ["configuration"; "performance"; "security"].

(** [!analysisType || !analysis_types.includes(analysisType)] *)
Definition valid_analysisType (v : jsval) : option string :=
  match v with
  | JStr s => if existsb (String.eqb s) analysis_types then Some s else None
  | _ => None
  end.

Definition analyzeDatabaseTool (num : js_numbers) : PostgresTool := {|
  name := "pg_analyze_database";
  description := "Analyze PostgreSQL database configuration and performance";
  inputSchema := [opt "connectionString" ZString;
                  opt "analysisType" (ZEnum analysis_types)];
  execute := fun args getConnectionString =>
    args <- destructure args ;;
    match valid_analysisType (get_prop args "analysisType") with
    | None =>
        ret (error_output
               "Error: analysisType is required and must be one of ['configuration', 'performance', 'security'].")
    | Some analysisType =>
        resolvedConnString <- getConnectionString (get_prop args "connectionString") ;;
        result <- analyzeDatabase num resolvedConnString analysisType ;;
        ret (ok_output (JSON_stringify_2_or result "undefined"))
    end
|}.

(* ================================================================== *)
(** * src/index.ts                                                      *)
(* ================================================================== *)

(** What the process was started with: the two command-line options of
    [commander], the environment variable, and the file system as
    [loadAndFilterTools] sees it, [fs.readFileSync] followed by
    [JSON.parse] on a path (either of which may throw). *)
Record process : Type := {
  options_connectionString : option string;
  options_toolsConfig : option string;
  env_POSTGRES_CONNECTION_STRING : option string;
  read_and_parse : string -> outcome jsval
}.

(** [if (s)] on an optional string: there, and not empty. *)
Definition non_empty (o : option string) : option string :=
  match o with
  | Some s => if string_is_empty s then None else Some s
  | None => None
  end.

Definition no_connection_string_message : string :=
  "No connection string provided. Provide one in the tool arguments, via the --connection-string CLI option, or set the POSTGRES_CONNECTION_STRING environment variable.".

Definition getConnectionString (p : process) : GetConnectionStringFn :=
  fun connectionStringArg =>
    if truthy connectionStringArg then ret connectionStringArg
    else
      match non_empty (options_connectionString p) with
      | Some cliConnectionString => ret (JStr cliConnectionString)
      | None =>
          match non_empty (env_POSTGRES_CONNECTION_STRING p) with
          | Some envConnectionString => ret (JStr envConnectionString)
          | None =>
              throw (McpError ErrorCode_InvalidParams no_connection_string_message)
          end
      end.

(** ** The name-to-tool record

    [enabledToolsMap] is a plain object used as a map: it starts as [{}],
    whose prototype is [Object.prototype], and [acc[tool.name] = tool]
    adds an own property, except for the key [__proto__], which sets the
    prototype instead.  Reading [map[k]] finds an own property first and
    then walks the prototype chain. *)
Record tool_record : Type := {
  own : list (string * PostgresTool);
  proto : option PostgresTool
}.

Definition empty_record : tool_record := {| own := []; proto := None |}.

Fixpoint own_set (props : list (string * PostgresTool)) (k : string)
    (t : PostgresTool) : list (string * PostgresTool) :=
  match props with
  | [] => [(k, t)]
  | (k', t') :: rest =>
      if String.eqb k k' then (k, t) :: rest else (k', t') :: own_set rest k t
  end.

Fixpoint own_get (props : list (string * PostgresTool)) (k : string)
  : option PostgresTool :=
  match props with
  | [] => None
  | (k', t) :: rest => if String.eqb k k' then Some t else own_get rest k
  end.

Definition record_set (r : tool_record) (k : string) (t : PostgresTool)
  : tool_record :=
  if String.eqb k "__proto__"
  then {| own := own r; proto := Some t |}
  else {| own := own_set (own r) k t; proto := proto r |}.

(** The members every plain object inherits. *)
Definition Object_prototype_keys : list string :=
  ["constructor"; "__defineGetter__"; "__defineSetter__"; "hasOwnProperty";
   "__lookupGetter__"; "__lookupSetter__"; "isPrototypeOf";
   "propertyIsEnumerable"; "toString"; "valueOf"; "__proto__";
   "toLocaleString"].

(** What [map[k]] evaluates to: a tool, some other value (of which only
    the truthiness matters, and which has no [execute]), or [undefined]. *)
Inductive property : Type :=
| PTool (t : PostgresTool)
| POther (is_truthy : bool)
| PUndefined.

Definition object_prototype_member (k : string) : property :=
  if existsb (String.eqb k) Object_prototype_keys then POther true else PUndefined.

(** The properties of a tool object, which is an object literal with the
    four fields of the interface. *)
Definition tool_member (t : PostgresTool) (k : string) : property :=
  if String.eqb k "name" then POther (negb (string_is_empty (name t)))
  else if String.eqb k "description"
       then POther (negb (string_is_empty (description t)))
  else if String.eqb k "inputSchema" || String.eqb k "execute" then POther true
  else object_prototype_member k.

Definition record_get (r : tool_record) (k : string) : property :=
  if String.eqb k "__proto__" then
    match proto r with
    | Some t => PTool t
    | None => POther true
    end
  else
    match own_get (own r) k with
    | Some t => PTool t
    | None =>
        match proto r with
        | Some t => tool_member t k
        | None => object_prototype_member k
        end
    end.

(** ** The server *)

Inductive log_line : Type :=
| console_error (line : string)
| console_warn (line : string).

(** [new Set(names)]: the names without repetition, in the order of
    their first occurrence. *)
Fixpoint js_Set_add (s : list string) (x : string) : list string :=
  match s with
  | [] => [x]
  | y :: rest => if String.eqb x y then s else y :: js_Set_add rest x
  end.

Definition js_Set (names : list string) : list string :=
  fold_left js_Set_add names [].

Definition js_Set_has (s : list string) (x : string) : bool :=
  existsb (String.eqb x) s.

(** [xs.every(t => typeof t === 'string')], with the strings. *)
Fixpoint all_strings (xs : list jsval) : option (list string) :=
  match xs with
  | [] => Some []
  | JStr s :: rest =>
      match all_strings rest with
      | Some names => Some (s :: names)
      | None => None
      end
  | _ :: _ => None
  end.

(** [config && Array.isArray(config.enabledTools) && config.enabledTools.every(...)] *)
Definition config_enabledTools (config : jsval) : option (list string) :=
  if truthy config then
    match get_prop config "enabledTools" with
    | JArr xs => all_strings xs
    | _ => None
    end
  else None.

(** The fields of [class PostgreSQLServer] that dispatch depends on. *)
Record PostgreSQLServer : Type := mkServer {
  availableToolsList : list PostgresTool;
  enabledTools : list PostgresTool;
  enabledToolsMap : tool_record
}.

Definition has_tool_named (tools : list PostgresTool) (n : string) : bool :=
  existsb (fun tool => String.eqb (name tool) n) tools.

Definition unknown_tool_warning (requestedName : string) : string :=
  "[MCP Warning] Tool " ++ dq ++ requestedName ++ dq
  ++ " specified in config file but not found in available tools.".

(** [loadAndFilterTools]: the tools to enable and what is printed. *)
Definition toolsToEnable_and_log (p : process) (available : list PostgresTool)
  : list PostgresTool * list log_line :=
  match non_empty (options_toolsConfig p) with
  | Some toolsConfigPath =>
      match read_and_parse p toolsConfigPath with
      | Returned config =>
          match config_enabledTools config with
          | Some names =>
              let enabledToolNames := js_Set names in
              let toolsToEnable :=
                filter (fun tool => js_Set_has enabledToolNames (name tool))
                  available in
              (toolsToEnable,
               console_error
                 ("[MCP Info] Loaded tools configuration from " ++ toolsConfigPath
                  ++ ". Enabled tools: "
                  ++ String.concat ", " (map name toolsToEnable))
               :: map (fun requestedName =>
                         console_warn (unknown_tool_warning requestedName))
                    (filter (fun requestedName =>
                               negb (has_tool_named available requestedName))
                       enabledToolNames))
          | None =>
              (available,
               [console_error
                  ("[MCP Warning] Invalid tools configuration file format at "
                   ++ toolsConfigPath ++ ".")])
          end
      | Threw error =>
          (available,
           [console_error
              ("[MCP Warning] Could not read or parse tools configuration file at "
               ++ toolsConfigPath ++ ". Error: " ++ error_message error ++ ".")])
      end
  | None =>
      (available,
       [console_error
          (if Nat.ltb 0 (length available)
           then "[MCP Info] No tools configuration file provided. All available tools will be enabled."
           else "[MCP Info] No tools configuration file provided and no tools loaded into availableToolsList.")])
  end.

(** [(acc, tool) => { acc[tool.name] = tool; return acc }] *)
Definition add_tool (acc : tool_record) (tool : PostgresTool) : tool_record :=
  record_set acc (name tool) tool.

Definition loadAndFilterTools (p : process) (srv : PostgreSQLServer)
  : PostgreSQLServer * list log_line :=
  let '(toolsToEnable, log) := toolsToEnable_and_log p (availableToolsList srv) in
  (mkServer (availableToolsList srv) toolsToEnable
     (fold_left add_tool toolsToEnable empty_record),
   log).

(** [new PostgreSQLServer(initialTools)], as far as the tool tables go. *)
Definition new_PostgreSQLServer (p : process) (initialTools : list PostgresTool)
  : PostgreSQLServer :=
  fst (loadAndFilterTools p (mkServer initialTools [] empty_record)).

(** [run()] filters once more before it connects the transport. *)
Definition run (p : process) (srv : PostgreSQLServer) : PostgreSQLServer :=
  fst (loadAndFilterTools p srv).

(** What the [ListToolsRequestSchema] handler gives for one tool; the
    schema is shown as it is declared, its rendering as JSON Schema being
    the library's. *)
Record descriptor : Type := mkDescriptor {
  d_name : string;
  d_description : string;
  d_inputSchema : list zod_field
}.

Definition listTools (srv : PostgreSQLServer) : list descriptor :=
  map (fun tool => mkDescriptor (name tool) (description tool) (inputSchema tool))
    (enabledTools srv).

(** [request.params] of a [CallToolRequestSchema] request. *)
Record CallToolRequest : Type := mkRequest {
  params_name : string;
  params_arguments : jsval
}.

Definition not_enabled_message (toolName : string) : string :=
  "Tool " ++ dq ++ toolName ++ dq
  ++ " is available but not enabled by the current server configuration.".

Definition not_found_message (toolName : string) : string :=
  "Tool '" ++ toolName ++ "' is not enabled or does not exist.".

(** The [CallToolRequestSchema] handler.  (Its [console.error] of the
    caught error is not kept.) *)
Definition callTool (p : process) (srv : PostgreSQLServer)
    (request : CallToolRequest) : M ToolOutput :=
  try_catch
    (let toolName := params_name request in
     let not_there :=
       let wasAvailable := has_tool_named (availableToolsList srv) toolName in
       let message :=
         if wasAvailable then not_enabled_message toolName
         else not_found_message toolName in
       throw (McpError ErrorCode_MethodNotFound message) in
     match record_get (enabledToolsMap srv) toolName with
     | PUndefined | POther false => not_there
     | PTool tool =>
         result <- execute tool (params_arguments request) (getConnectionString p) ;;
         ret result
     | POther true => throw (JsError "tool.execute is not a function")
     end)
    (fun error => ret (error_output ("Error: " ++ error_message error))).

(** The tools of the modules that are imported by [index.ts] and are not
    among the sources: [debug], [enums], [migration], [monitor],
    [schema], [setup] and [triggers]. *)
Record imported_tools : Type := {
  debugDatabaseTool : PostgresTool;
  getEnumsTool : PostgresTool;
  createEnumTool : PostgresTool;
  exportTableDataTool : PostgresTool;
  importTableDataTool : PostgresTool;
  copyBetweenDatabasesTool : PostgresTool;
  monitorDatabaseTool : PostgresTool;
  getSchemaInfoTool : PostgresTool;
  createTableTool : PostgresTool;
  alterTableTool : PostgresTool;
  getSetupInstructionsTool : PostgresTool;
  getTriggersTool : PostgresTool;
  createTriggerTool : PostgresTool;
  dropTriggerTool : PostgresTool;
  setTriggerStateTool : PostgresTool
}.

Definition imported_list (ext : imported_tools) : list PostgresTool :=
  [debugDatabaseTool ext; getEnumsTool ext; createEnumTool ext;
   exportTableDataTool ext; importTableDataTool ext;
   copyBetweenDatabasesTool ext; monitorDatabaseTool ext;
   getSchemaInfoTool ext; createTableTool ext; alterTableTool ext;
   getSetupInstructionsTool ext; getTriggersTool ext; createTriggerTool ext;
   dropTriggerTool ext; setTriggerStateTool ext].

(** [const allTools], the registry the server is constructed with. *)
Definition allTools (num : js_numbers) (ext : imported_tools)
  : list PostgresTool :=
  ([analyzeDatabaseTool num; getFunctionsTool; createFunctionTool;
    dropFunctionTool; enableRLSTool; disableRLSTool; createRLSPolicyTool;
    dropRLSPolicyTool; editRLSPolicyTool; getRLSPoliciesTool]
   ++ imported_list ext)%list.

Definition serverInstance (p : process) (num : js_numbers) (ext : imported_tools)
  : PostgreSQLServer :=
  run p (new_PostgreSQLServer p (allTools num ext)).

(* ================================================================== *)
(** * Vocabulary of the properties                                      *)
(* ================================================================== *)

(** The round trips an operation adds to the trace of [w]. *)
Definition events_of {A} (m : M A) (w : world) : list db_event :=
  skipn (length (db_trace w)) (db_trace (snd (m w))).

(** An operation that never returns, normally or by an exception, with
    the connection handle still held. *)
Definition releases {A} (m : M A) : Prop :=
  forall w, db_client (snd (m w)) = false.

(** An argument that may be left out. *)
Definition of_option (o : option string) : jsval :=
  match o with Some s => JStr s | None => JUndefined end.

(** The precedence rule in the words of the specification: the first of
    the candidates that is there and not empty. *)
Fixpoint first_non_empty (candidates : list (option string)) : option string :=
  match candidates with
  | [] => None
  | c :: rest =>
      match non_empty c with
      | Some s => Some s
      | None => first_non_empty rest
      end
  end.

(** Whether a call with this [connectionString] argument finds a
    connection string at one of the three levels. *)
Definition can_resolve (p : process) (connectionStringArg : jsval) : bool :=
  truthy connectionStringArg
  || match non_empty (options_connectionString p) with Some _ => true | None => false end
  || match non_empty (env_POSTGRES_CONNECTION_STRING p) with Some _ => true | None => false end.

(** The allow-list the process supplies: the [enabledTools] of a
    configuration file that is named, readable and well formed. *)
Definition allow_list (p : process) : option (list string) :=
  match non_empty (options_toolsConfig p) with
  | Some toolsConfigPath =>
      match read_and_parse p toolsConfigPath with
      | Returned config => config_enabledTools config
      | Threw _ => None
      end
  | None => None
  end.

(** Order-preserving selection. *)
Inductive Subseq {A} : list A -> list A -> Prop :=
| Subseq_nil : Subseq [] []
| Subseq_skip x xs ys : Subseq xs ys -> Subseq xs (x :: ys)
| Subseq_keep x xs ys : Subseq xs ys -> Subseq (x :: xs) (x :: ys).


Definition wide_branches : list (PostgresTool * string * list string) :=
  [(manageFunctionsTool, "create", ["functionName"; "returnType"; "functionBody"]);
   (manageFunctionsTool, "drop", ["functionName"]);
   (manageRLSTool, "enable", ["tableName"]);
   (manageRLSTool, "disable", ["tableName"]);
   (manageRLSTool, "create_policy", ["tableName"; "policyName"; "using"]);
   (manageRLSTool, "edit_policy", ["tableName"; "policyName"]);
   (manageRLSTool, "drop_policy", ["tableName"; "policyName"])].


(** The tools whose code is among the sources. *)
Definition source_tools (num : js_numbers) : list PostgresTool :=
  [analyzeDatabaseTool num; getFunctionsTool; createFunctionTool;
   dropFunctionTool; enableRLSTool; disableRLSTool; createRLSPolicyTool;
   dropRLSPolicyTool; editRLSPolicyTool; getRLSPoliciesTool;
   manageFunctionsTool; manageRLSTool].

(** The connection string a call resolves to, if any: the argument when
    it is truthy, else the first non-empty of the two defaults. *)
Definition resolved (p : process) (connectionStringArg : jsval) : option jsval :=
  if truthy connectionStringArg then Some connectionStringArg
  else option_map JStr
         (first_non_empty [options_connectionString p;
                           env_POSTGRES_CONNECTION_STRING p]).

(** A computation that leaves the world as it is. *)
Definition pure {A} (m : M A) : Prop := forall w, snd (m w) = w.

(** A computation that only adds round trips to the trace. *)
Definition extends {A} (m : M A) : Prop :=
  forall w, exists evs, db_trace (snd (m w)) = (db_trace w ++ evs)%list.

(** A computation whose first round trip is a connect with the given
    connection string. *)
Definition starts_with_connect {A} (cs : jsval) (m : M A) : Prop :=
  forall w, exists rest,
    db_trace (snd (m w)) = (db_trace w ++ EvConnect cs :: rest)%list.

(** A computation that makes no round trip at all or connects with the
    given connection string first. *)
Definition connects_with {A} (cs : jsval) (m : M A) : Prop :=
  forall w,
    snd (m w) = w
    \/ exists rest, db_trace (snd (m w)) = (db_trace w ++ EvConnect cs :: rest)%list.

(** ** Concrete inputs for the examples *)

(** A process with the given defaults whose only file is [tools.json]. *)
Definition example_process (cli env : option string) (toolsConfig : option string)
    (tools_json : jsval) : process := {|
  options_connectionString := cli;
  options_toolsConfig := toolsConfig;
  env_POSTGRES_CONNECTION_STRING := env;
  read_and_parse := fun path =>
    if String.eqb path "tools.json" then Returned tools_json
    else Threw (JsError ("ENOENT: no such file or directory, open '" ++ path ++ "'"))
|}.

(** A server that accepts every connection and answers every statement
    with no rows, with the connection not held. *)
Definition quiet_world : world := mkWorld false [] [].

(** A descriptor that stands for a tool of a module outside the
    sources; only its name matters where it is used. *)
Definition named_tool (n : string) : PostgresTool := {|
  name := n;
  description := EmptyString;
  inputSchema := [];
  execute := fun _ _ => ret (ok_output EmptyString)
|}.

(** The imported tools under the names the repository's documentation
    uses for them. *)
Definition example_imports : imported_tools := {|
  debugDatabaseTool := named_tool "debug_database";
  getEnumsTool := named_tool "pg_get_enums";
  createEnumTool := named_tool "pg_create_enum";
  exportTableDataTool := named_tool "export_table_data";
  importTableDataTool := named_tool "import_table_data";
  copyBetweenDatabasesTool := named_tool "copy_between_databases";
  monitorDatabaseTool := named_tool "monitor_database";
  getSchemaInfoTool := named_tool "pg_get_schema_info";
  createTableTool := named_tool "pg_create_table";
  alterTableTool := named_tool "pg_alter_table";
  getSetupInstructionsTool := named_tool "get_setup_instructions";
  getTriggersTool := named_tool "pg_get_triggers";
  createTriggerTool := named_tool "pg_create_trigger";
  dropTriggerTool := named_tool "pg_drop_trigger";
  setTriggerStateTool := named_tool "pg_set_trigger_state"
|}.

(** Integer stand-ins for the number operations. *)
Definition example_numbers : js_numbers := {|
  Number_parseInt := fun v => v;
  cacheHitRatio_of := fun _ => JNum (mkNumber NumZero "0");
  below_099 := fun _ => true;
  above_80_percent := fun _ _ => false;
  above_1 := fun _ => false
|}.

(** A process with no connection string at any level, one with a
    command-line default, and a server whose registry has the two
    consolidated tools. *)
Definition no_defaults : process := example_process None None None JNull.

Definition cli_default : process :=
  example_process (Some "postgresql://localhost:5432/db") None None JNull.

Definition wide_server (p : process) : PostgreSQLServer :=
  new_PostgreSQLServer p [manageFunctionsTool; manageRLSTool].

(** A server that accepts the connection and answers the first
    statement with no rows. *)
Definition accepting_world : world :=
  mkWorld false [] [ReplyRows []; ReplyRows []].

Definition no_comment_options : comment_options :=
  {| co_schema := JUndefined; co_parentObject := JUndefined;
     co_parameters := JUndefined |}.

(** The enablement file of the scenario. *)
Definition only_manage_functions : jsval :=
  JObj [("enabledTools", JArr [JStr "pg_manage_functions"])].

(** ** Vocabulary of the further properties *)

(** The value PostgreSQL reads from the body of a quoted literal: two
    quotes stand for one. *)
Fixpoint sql_literal_value (body : string) : string :=
  match body with
  | EmptyString => EmptyString
  | String c rest =>
      if Ascii.eqb c "'"%char then
        match rest with
        | String c' rest' =>
            if Ascii.eqb c' "'"%char
            then String "'"%char (sql_literal_value rest')
            else String c (sql_literal_value rest)
        | EmptyString => String c EmptyString
        end
      else String c (sql_literal_value rest)
  end.

(** A literal body in which no quote stands alone, so that the literal
    ends where its closing quote is. *)
Fixpoint quotes_paired (body : string) : bool :=
  match body with
  | EmptyString => true
  | String c rest =>
      if Ascii.eqb c "'"%char then
        match rest with
        | String c' rest' => Ascii.eqb c' "'"%char && quotes_paired rest'
        | EmptyString => false
        end
      else quotes_paired rest
  end.

(** The server answers the next [n] round trips without an error. *)
Fixpoint accepts (n : nat) (script : list db_reply) : bool :=
  match n with
  | 0 => true
  | S n' =>
      match script with
      | [] => true
      | ReplyRows _ :: rest => accepts n' rest
      | ReplyFail _ :: _ => false
      end
  end.


Definition never_throws {A} (m : M A) : Prop :=
  forall w, exists r w', m w = (Returned r, w').

(** The narrow tool each operation of a consolidated tool took over,
    with the fields the branch checks. *)
Definition consolidation
  : list (PostgresTool * string * list string * PostgresTool) :=
  [(manageFunctionsTool, "get", [], getFunctionsTool);
   (manageFunctionsTool, "drop", ["functionName"], dropFunctionTool);
   (manageRLSTool, "enable", ["tableName"], enableRLSTool);
   (manageRLSTool, "disable", ["tableName"], disableRLSTool);
   (manageRLSTool, "create_policy", ["tableName"; "policyName"; "using"],
    createRLSPolicyTool);
   (manageRLSTool, "edit_policy", ["tableName"; "policyName"], editRLSPolicyTool);
   (manageRLSTool, "drop_policy", ["tableName"; "policyName"], dropRLSPolicyTool);
   (manageRLSTool, "get_policies", [], getRLSPoliciesTool)].

(** The object types of [comment.ts], and whether a comment on one can
    be addressed with the options given: four of them need the table
    they belong to. *)
Definition comment_types : list string :=
  ["table"; "column"; "function"; "policy"; "trigger"; "constraint"; "index";
   "sequence"].

Definition needs_parent (objectType : string) : bool :=
  existsb (String.eqb objectType) ["column"; "policy"; "trigger"; "constraint"].

Definition comment_addressable (objectType : string) (options : comment_options)
  : bool :=
  existsb (String.eqb objectType) comment_types
  && (negb (needs_parent objectType) || truthy (co_parentObject options)).

(** The last tool of a name in a list. *)
Definition last_named (n : string) (tools : list PostgresTool)
  : option PostgresTool :=
  find (fun tool => String.eqb (name tool) n) (rev tools).

Definition is_JStr (v : jsval) : bool :=
  match v with JStr _ => true | _ => false end.

(** A computation that, started with no connection handle held, ends
    with none held. *)
Definition keeps_released {A} (m : M A) : Prop :=
  forall w, db_client w = false -> db_client (snd (m w)) = false.


(** A server whose connection fails, and one that accepts the
    connection and fails the first statement. *)
Definition refusing_world : world :=
  mkWorld false [] [ReplyFail (JsError "connect ECONNREFUSED 127.0.0.1:5432")].

Definition failing_statement_world : world :=
  mkWorld false []
    [ReplyRows []; ReplyFail (JsError "permission denied for table users")].

(** The row that decides the setting [n]: the last one of that name. *)
Definition deciding_row (n : string) (rows : list jsval) : option jsval :=
  find (fun row => String.eqb (js_String (get_prop row "name")) n) (rev rows).

Definition is_primitive (v : jsval) : bool :=
  match v with JNull | JArr _ | JObj _ => false | _ => true end.

(** An object that only ever had such values assigned keeps
    [Object.prototype] and gets no property [__proto__]. *)
Definition untouched (o : plain_object) : Prop :=
  po_proto o = None /\ assoc "__proto__" (po_own o) = None.

(* ================================================================== *)
(** * The connection is released on every path                          *)
(* ================================================================== *)

Section Release.

(** A [finally] that disconnects leaves no handle, whatever the body
    did and however it ended. *)
Lemma try_finally_disconnect_releases {A} (m : M A) :
  releases (try_finally m db_disconnect).
Proof.
  intros w. unfold try_finally, db_disconnect.
  destruct (m w) as [r w']. reflexivity.
Qed.

(** A failed [connect] holds nothing, so connecting in front of a
    releasing body keeps the discipline. *)
Lemma connect_then_releases {A} (cs : jsval) (m : M A) :
  releases m -> releases (db_connect cs ;; m).
Proof.
  intros Hm w. unfold bind, db_connect, next_reply.
  destruct (db_script w) as [|[rows|e] rest]; simpl; try apply Hm.
  reflexivity.
Qed.

End Release.

Create HintDb release.
#[local] Hint Resolve try_finally_disconnect_releases connect_then_releases
  : release.

(** C9.  Every operation of [functions.ts], [comment.ts] and
    [analyze.ts] that connects to the database has released the
    connection handle when it returns, whatever the server answered to
    each round trip: on success, after a failed query, after a failed
    connect and after any exception caught on the way. *)
Theorem operations_release_connection :
  (forall cs functionName schema, releases (_getFunctions cs functionName schema))
  /\ (forall cs functionName parameters returnType functionBody options,
        releases (_createFunction cs functionName parameters returnType
                    functionBody options))
  /\ (forall cs functionName parameters options,
        releases (_dropFunction cs functionName parameters options))
  /\ (forall cs tableName schema, releases (_enableRLS cs tableName schema))
  /\ (forall cs tableName schema, releases (_disableRLS cs tableName schema))
  /\ (forall cs tableName policyName using_ check options,
        releases (_createRLSPolicy cs tableName policyName using_ check options))
  /\ (forall cs tableName policyName options,
        releases (_dropRLSPolicy cs tableName policyName options))
  /\ (forall cs tableName policyName options,
        releases (_editRLSPolicy cs tableName policyName options))
  /\ (forall cs tableName schema, releases (_getRLSPolicies cs tableName schema))
  /\ (forall cs objectType objectName comment options,
        releases (setDatabaseComment cs objectType objectName comment options))
  /\ (forall cs objectType objectName options,
        releases (removeDatabaseComment cs objectType objectName options))
  /\ (forall cs objectType objectName options,
        releases (getDatabaseComment cs objectType objectName options))
  /\ (forall num cs analysisType, releases (analyzeDatabase num cs analysisType)).
Proof.
  repeat split; intros;
    unfold _getFunctions, _createFunction, _dropFunction, _enableRLS,
      _disableRLS, _createRLSPolicy, _dropRLSPolicy, _editRLSPolicy,
      _getRLSPolicies, removeDatabaseComment, setDatabaseComment,
      getDatabaseComment, analyzeDatabase;
    auto with release.
Qed.

(* ================================================================== *)
(** * Removing a comment                                                *)
(* ================================================================== *)

Lemma skipn_length_app {A} (xs ys : list A) :
  skipn (length xs) (xs ++ ys)%list = ys.
Proof. induction xs; simpl; auto. Qed.

Lemma string_app_assoc (a b c : string) : (a ++ b) ++ c = a ++ b ++ c.
Proof. induction a; simpl; congruence. Qed.

(** Text that ends in a given suffix. *)
Definition EndsWith (s suffix : string) : Prop := exists p, s = p ++ suffix.

Lemma EndsWith_refl s : EndsWith s s.
Proof. exists EmptyString. reflexivity. Qed.

Lemma EndsWith_app a s suffix : EndsWith s suffix -> EndsWith (a ++ s) suffix.
Proof.
  intros [p ->]. exists (a ++ p). now rewrite string_app_assoc.
Qed.

Lemma EndsWith_cons c s suffix : EndsWith s suffix -> EndsWith (String c s) suffix.
Proof. intros [p ->]. now exists (String c p). Qed.

Lemma between_prefix_and_suffix sql pre suffix :
  (exists rest, sql = pre ++ rest /\ EndsWith rest suffix) ->
  exists target, sql = pre ++ target ++ suffix.
Proof. intros [rest [-> [p ->]]]. now exists p. Qed.

Ltac ends_with :=
  repeat first [ apply EndsWith_refl | apply EndsWith_app | apply EndsWith_cons ].

(** Building the statement touches nothing, and what it builds is a
    COMMENT ON statement that ends in the quoted comment. *)
Lemma comment_on_sql_shape objectType objectName escapedComment schema options w :
  match comment_on_sql objectType objectName escapedComment schema options w with
  | (Returned sql, w') =>
      w' = w /\
      exists target, sql = "COMMENT ON " ++ target ++ " IS '" ++ escapedComment ++ "'"
  | (Threw _, w') => w' = w
  end.
Proof.
  unfold comment_on_sql.
  repeat match goal with
         | |- context [String.eqb ?a ?b] => destruct (String.eqb a b)
         | |- context [truthy ?v] => destruct (truthy v)
         end;
    cbn [negb ret throw]; try reflexivity;
    (split; [reflexivity|]);
    apply between_prefix_and_suffix;
    eexists; (split; [cbn [append]; reflexivity | ends_with]).
Qed.

(** Unfolding the steps of the monad and of the connection manager. *)
Ltac step_monad :=
  repeat progress
    (unfold try_finally, try_catch, bind, ret, throw, failed,
       db_connect, db_query, db_disconnect, next_reply in *;
     cbn [db_script db_trace db_client fst snd] in *).

(** Reading the events an operation added off the final trace. *)
Ltac new_events :=
  repeat rewrite <- app_assoc; rewrite skipn_length_app; cbn [app In].

Lemma setDatabaseComment_queries cs objectType objectName comment options w sql params :
  In (EvQuery sql params)
    (events_of (setDatabaseComment cs objectType objectName comment options) w) ->
  params = [] /\
  exists target,
    sql = "COMMENT ON " ++ target ++ " IS '" ++ escape_quotes comment ++ "'".
Proof.
  unfold setDatabaseComment, events_of. step_monad.
  destruct (db_script w) as [|[rows|e] rest];
    match goal with
    | |- context [comment_on_sql ?a ?b ?c ?d ?e ?w0] =>
        pose proof (comment_on_sql_shape a b c d e w0) as Hshape;
        destruct (comment_on_sql a b c d e w0) as [[sql0|e0] w1];
        [destruct Hshape as [-> Hsql] | subst w1]
    | _ => idtac
    end;
    step_monad;
    repeat match goal with
           | |- context [match ?l with [] => _ | _ :: _ => _ end] =>
               destruct l as [|[?|?] ?]
           end;
    step_monad; new_events;
    intros H; repeat destruct H as [H|H]; try discriminate H; try contradiction;
    inversion H; subst; auto.
Qed.

(** C10.  [removeDatabaseComment] is [setDatabaseComment] with the
    comment text NULL: the two agree on every input and in every state,
    and every statement it sends has the form COMMENT ON ... IS 'NULL',
    the quoted four-letter text, with no parameters; for a table on a
    server that accepts the connection that statement is sent. *)
Theorem removeDatabaseComment_sets_text_NULL cs objectType objectName options w :
  removeDatabaseComment cs objectType objectName options w
  = setDatabaseComment cs objectType objectName "NULL" options w
  /\ (forall sql params,
        In (EvQuery sql params)
          (events_of (removeDatabaseComment cs objectType objectName options) w) ->
        params = [] /\ exists target, sql = "COMMENT ON " ++ target ++ " IS 'NULL'")
  /\ (forall rows rest,
        db_script w = ReplyRows rows :: rest ->
        In (EvQuery ("COMMENT ON TABLE " ++ js_String (js_or (co_schema options) (JStr "public"))
                     ++ "." ++ objectName ++ " IS 'NULL'") [])
          (events_of (removeDatabaseComment cs "table" objectName options) w)).
Proof.
  split; [reflexivity|]. split.
  - intros sql params H.
    apply (setDatabaseComment_queries cs objectType objectName "NULL" options w) in H.
    exact H.
  - intros rows rest Hs.
    unfold removeDatabaseComment, setDatabaseComment, events_of. step_monad.
    rewrite Hs. unfold comment_on_sql. cbn [String.eqb Ascii.eqb Bool.eqb].
    step_monad.
    destruct rest as [|[?|?] ?]; step_monad; new_events;
      right; left; reflexivity.
Qed.

(* ================================================================== *)
(** * The dispatch boundary                                             *)
(* ================================================================== *)

(** C1.  The handler of a tool call always returns, and what it returns
    is one envelope.  When the name resolves to a tool, the envelope is
    the one the tool's [execute] returned, unchanged and in the state
    the tool left; when [execute] threw, it is the error envelope whose
    one text block is [Error: ] followed by the message of the [Error]
    thrown (for an [McpError] the message its constructor was given,
    behind [MCP error <code>: ]) or by the text of any other thrown
    value.  When the lookup fails, it is the error envelope of the
    [McpError] the handler throws itself, code -32601, which says that
    the tool is available but not enabled, or that it is not enabled or
    does not exist; a name that finds a member of [Object.prototype]
    gives the engine's message for calling what is no function.  An
    envelope that is not an error is therefore always the tool's own. *)
Theorem callTool_one_envelope p srv request w :
  exists out w',
    callTool p srv request w = (Returned out, w')
    /\ match record_get (enabledToolsMap srv) (params_name request) with
       | PTool tool =>
           match execute tool (params_arguments request) (getConnectionString p) w with
           | (Returned result, w1) => out = result /\ w' = w1
           | (Threw error, w1) =>
               w' = w1
               /\ out = {| content :=
                             [{| ctype := "text";
                                 text :=
                                   "Error: "
                                   ++ match error with
                                      | JsError message => message
                                      | McpError code message =>
                                          "MCP error " ++ string_of_Z code ++ ": "
                                          ++ message
                                      | NonError v => js_String v
                                      end |}];
                           isError := true |}
           end
       | POther true =>
           w' = w
           /\ out = {| content :=
                         [{| ctype := "text";
                             text := "Error: tool.execute is not a function" |}];
                       isError := true |}
       | POther false | PUndefined =>
           w' = w
           /\ out = {| content :=
                         [{| ctype := "text";
                             text :=
                               "Error: MCP error -32601: "
                               ++ (if existsb
                                        (fun t => String.eqb (name t) (params_name request))
                                        (availableToolsList srv)
                                   then "Tool " ++ dq ++ params_name request ++ dq
                                        ++ " is available but not enabled by the current server configuration."
                                   else "Tool '" ++ params_name request
                                        ++ "' is not enabled or does not exist.") |}];
                       isError := true |}
       end
    /\ (isError out = false ->
        exists tool,
          record_get (enabledToolsMap srv) (params_name request) = PTool tool
          /\ execute tool (params_arguments request) (getConnectionString p) w
             = (Returned out, w')).
Proof.
  unfold callTool, try_catch, bind, ret, throw.
  destruct (record_get (enabledToolsMap srv) (params_name request))
    as [tool|[|]|] eqn:Hget.
  - destruct (execute tool (params_arguments request) (getConnectionString p) w)
      as [[result|error] w1] eqn:Hexec.
    + exists result, w1. repeat split; eauto.
    + eexists _, w1. split; [reflexivity|]. split; [|cbn; discriminate].
      split; [reflexivity|]. now destruct error.
  - eexists _, w. split; [reflexivity|]. split; [|cbn; discriminate].
    split; reflexivity.
  - eexists _, w. split; [reflexivity|]. split; [|cbn; discriminate].
    split; [reflexivity|].
    unfold has_tool_named.
    now destruct (existsb _ (availableToolsList srv)).
  - eexists _, w. split; [reflexivity|]. split; [|cbn; discriminate].
    split; [reflexivity|].
    unfold has_tool_named.
    now destruct (existsb _ (availableToolsList srv)).
Qed.

Lemma callTool_one_envelope_witness :
  (exists out w',
     callTool no_defaults (wide_server no_defaults)
       (mkRequest "pg_rename_function" (JObj [])) quiet_world
     = (Returned out, w')
     /\ w' = quiet_world
     /\ out = {| content :=
                   [{| ctype := "text";
                       text := "Error: MCP error -32601: Tool 'pg_rename_function' is not enabled or does not exist." |}];
                 isError := true |})
  /\ (exists out w',
        callTool no_defaults (wide_server no_defaults)
          (mkRequest "pg_manage_functions" JUndefined) quiet_world
        = (Returned out, w')
        /\ w' = quiet_world
        /\ out = {| content :=
                      [{| ctype := "text";
                          text := "Error: Cannot destructure property 'connectionString' of 'args' as it is undefined." |}];
                    isError := true |}).
Proof.
  split.
  - destruct (callTool_one_envelope no_defaults (wide_server no_defaults)
                (mkRequest "pg_rename_function" (JObj [])) quiet_world)
      as (out & w' & Hrun & Hcase & _).
    exists out, w'. split; [exact Hrun|]. exact Hcase.
  - destruct (callTool_one_envelope no_defaults (wide_server no_defaults)
                (mkRequest "pg_manage_functions" JUndefined) quiet_world)
      as (out & w' & Hrun & Hcase & _).
    exists out, w'. split; [exact Hrun|]. exact Hcase.
Defined.

(* ================================================================== *)
(** * Enablement filtering                                              *)
(* ================================================================== *)

Section Filtering.

Lemma js_Set_add_In s y x : In x (js_Set_add s y) <-> In x s \/ x = y.
Proof.
  induction s as [|z s IH]; simpl.
  - intuition.
  - destruct (String.eqb y z) eqn:E.
    + apply String.eqb_eq in E. subst z. simpl. intuition.
    + simpl. rewrite IH. intuition.
Qed.

Lemma fold_js_Set_add_In names acc x :
  In x (fold_left js_Set_add names acc) <-> In x acc \/ In x names.
Proof.
  revert acc. induction names as [|n names IH]; intros acc; simpl.
  - intuition.
  - rewrite IH, js_Set_add_In. intuition.
Qed.

Lemma js_Set_In names x : In x (js_Set names) <-> In x names.
Proof. unfold js_Set. rewrite fold_js_Set_add_In. simpl. intuition. Qed.

Lemma js_Set_add_NoDup s y : NoDup s -> NoDup (js_Set_add s y).
Proof.
  induction s as [|z s IH]; simpl; intros H.
  - constructor; [intros []|constructor].
  - destruct (String.eqb y z) eqn:E; [assumption|].
    inversion H; subst. constructor; [|auto].
    rewrite js_Set_add_In. intros [Hin | ->]; [contradiction|].
    now rewrite String.eqb_refl in E.
Qed.

Lemma js_Set_NoDup names : NoDup (js_Set names).
Proof.
  unfold js_Set. generalize (NoDup_nil string).
  generalize (@nil string) as acc.
  induction names as [|n names IH]; intros acc H; simpl; auto.
  apply IH, js_Set_add_NoDup, H.
Qed.

Lemma existsb_eqb_In (x : string) (l : list string) :
  existsb (String.eqb x) l = true <-> In x l.
Proof.
  rewrite existsb_exists. split.
  - intros [y [Hy E]]. apply String.eqb_eq in E. now subst.
  - intros H. exists x. split; [assumption|apply String.eqb_refl].
Qed.

(** Membership in the [Set] is membership in the list it was made of. *)
Lemma js_Set_has_spec names x :
  js_Set_has (js_Set names) x = existsb (String.eqb x) names.
Proof.
  unfold js_Set_has. apply eq_true_iff_eq.
  now rewrite !existsb_eqb_In, js_Set_In.
Qed.

Lemma filter_Subseq {A} (f : A -> bool) (l : list A) : Subseq (filter f l) l.
Proof.
  induction l as [|x l IH]; simpl; [constructor|].
  destruct (f x); now constructor.
Qed.

Lemma Subseq_refl {A} (l : list A) : Subseq l l.
Proof. induction l; now constructor. Qed.

Lemma has_tool_named_false tools n :
  has_tool_named tools n = false <-> ~ exists tool, In tool tools /\ name tool = n.
Proof.
  unfold has_tool_named. rewrite <- not_true_iff_false, existsb_exists.
  split; intros H [tool [Hin E]]; apply H; exists tool; split; auto.
  - now apply String.eqb_eq.
  - now apply String.eqb_eq in E.
Qed.

End Filtering.

(** What the constructor enables, and that [run] changes nothing. *)
Lemma enabledTools_new p available :
  enabledTools (new_PostgreSQLServer p available)
  = match allow_list p with
    | Some L => filter (fun tool => existsb (String.eqb (name tool)) L) available
    | None => available
    end.
Proof.
  unfold new_PostgreSQLServer, loadAndFilterTools, allow_list,
    toolsToEnable_and_log.
  cbn [availableToolsList].
  destruct (non_empty (options_toolsConfig p)) as [path|]; [|reflexivity].
  destruct (read_and_parse p path) as [config|error]; [|reflexivity].
  destruct (config_enabledTools config) as [L|]; [|reflexivity].
  cbn [fst enabledTools]. apply filter_ext. intros tool. apply js_Set_has_spec.
Qed.

Lemma availableToolsList_new p available :
  availableToolsList (new_PostgreSQLServer p available) = available.
Proof.
  unfold new_PostgreSQLServer, loadAndFilterTools.
  destruct (toolsToEnable_and_log p _). reflexivity.
Qed.

Lemma enabledTools_run p available :
  enabledTools (run p (new_PostgreSQLServer p available))
  = enabledTools (new_PostgreSQLServer p available).
Proof.
  unfold run, loadAndFilterTools. rewrite availableToolsList_new.
  unfold new_PostgreSQLServer, loadAndFilterTools. cbn [availableToolsList].
  destruct (toolsToEnable_and_log p available). reflexivity.
Qed.

(** An array of strings passes the test of [loadAndFilterTools], and
    the names are those strings. *)
Lemma all_strings_map_JStr L : all_strings (map JStr L) = Some L.
Proof.
  induction L as [|n L IH]; cbn; [reflexivity|]. now rewrite IH.
Qed.

(** A configuration file whose [enabledTools] is an array of strings is
    an allow-list of those strings. *)
Lemma allow_list_of_file p path config L :
  options_toolsConfig p = Some path -> path <> EmptyString ->
  read_and_parse p path = Returned config ->
  get_prop config "enabledTools" = JArr (map JStr L) ->
  allow_list p = Some L.
Proof.
  intros Hopt Hpath Hread Hget. unfold allow_list. rewrite Hopt. cbn [non_empty].
  destruct path as [|c path]; [congruence|]. cbn [string_is_empty].
  rewrite Hread. unfold config_enabledTools. rewrite Hget.
  destruct config; try discriminate Hget. cbn [truthy].
  apply all_strings_map_JStr.
Qed.

(** What an allow-list does to the registry and what is printed. *)
Lemma allow_list_enables p available L :
  allow_list p = Some L ->
  enabledTools (new_PostgreSQLServer p available)
  = filter (fun tool => existsb (String.eqb (name tool)) L) available
  /\ Subseq (enabledTools (new_PostgreSQLServer p available)) available
  /\ (forall tool,
        In tool (enabledTools (new_PostgreSQLServer p available))
        <-> In tool available /\ In (name tool) L)
  /\ exists info unknown,
       snd (toolsToEnable_and_log p available)
       = console_error info
         :: map (fun n => console_warn (unknown_tool_warning n)) unknown
       /\ NoDup unknown
       /\ forall n, In n unknown <->
                    In n L /\ ~ exists tool, In tool available /\ name tool = n.
Proof.
  intros HL. rewrite enabledTools_new, HL.
  split; [reflexivity|]. split; [apply filter_Subseq|]. split.
  - intros tool. rewrite filter_In, existsb_eqb_In. tauto.
  - unfold allow_list in HL. unfold toolsToEnable_and_log.
    destruct (non_empty (options_toolsConfig p)) as [path|]; [|discriminate].
    destruct (read_and_parse p path) as [config|error]; [|discriminate].
    rewrite HL. cbn [snd].
    eexists _, _. split; [reflexivity|]. split.
    + apply NoDup_filter, js_Set_NoDup.
    + intros n. rewrite filter_In, js_Set_In, negb_true_iff, has_tool_named_false.
      tauto.
Qed.

(** C3.  For every list [L] of names, a server started with a
    configuration file whose [enabledTools] is the array of those names
    enables the registry's tools whose names are in [L], in registry
    order; the names of [L] that the registry does not have are each
    warned about once, and that is all they do: the server is
    constructed all the same.  Started with no configuration file (no
    option, or an empty one) it enables the whole registry, and so it
    does when the file cannot be read or is not well formed.  Filtering
    again gives the same set. *)
Theorem loadAndFilterTools_enabled_set p available :
  let srv := new_PostgreSQLServer p available in
  let log := snd (toolsToEnable_and_log p available) in
  (forall path config L,
     options_toolsConfig p = Some path -> path <> EmptyString ->
     read_and_parse p path = Returned config ->
     get_prop config "enabledTools" = JArr (map JStr L) ->
     allow_list p = Some L
     /\ enabledTools srv
        = filter (fun tool => existsb (String.eqb (name tool)) L) available
     /\ Subseq (enabledTools srv) available
     /\ (forall tool,
           In tool (enabledTools srv) <-> In tool available /\ In (name tool) L)
     /\ exists info unknown,
          log = console_error info
                :: map (fun n => console_warn (unknown_tool_warning n)) unknown
          /\ NoDup unknown
          /\ forall n, In n unknown <->
                       In n L /\ ~ exists tool, In tool available /\ name tool = n)
  /\ (options_toolsConfig p = None \/ options_toolsConfig p = Some EmptyString ->
      allow_list p = None /\ enabledTools srv = available)
  /\ match allow_list p with
     | Some L =>
         enabledTools srv
         = filter (fun tool => existsb (String.eqb (name tool)) L) available
         /\ Subseq (enabledTools srv) available
         /\ (forall tool,
               In tool (enabledTools srv) <-> In tool available /\ In (name tool) L)
         /\ exists info unknown,
              log = console_error info
                    :: map (fun n => console_warn (unknown_tool_warning n)) unknown
              /\ NoDup unknown
              /\ forall n, In n unknown <->
                           In n L /\ ~ exists tool, In tool available /\ name tool = n
     | None => enabledTools srv = available
     end
  /\ availableToolsList srv = available
  /\ enabledTools (run p srv) = enabledTools srv.
Proof.
  cbv zeta. split; [|split; [|split]].
  - intros path config L Hopt Hpath Hread Hget.
    pose proof (allow_list_of_file p L Hopt Hpath Hread Hget) as HL.
    split; [exact HL|]. now apply allow_list_enables.
  - intros Hnone.
    assert (HL : allow_list p = None).
    { unfold allow_list. now destruct Hnone as [-> | ->]. }
    split; [exact HL|]. now rewrite enabledTools_new, HL.
  - destruct (allow_list p) as [L|] eqn:HL.
    + now apply allow_list_enables.
    + now rewrite enabledTools_new, HL.
  - split; [apply availableToolsList_new|apply enabledTools_run].
Qed.

Lemma loadAndFilterTools_enabled_set_witness :
  map name
    (enabledTools
       (new_PostgreSQLServer
          (example_process None None (Some "tools.json")
             (JObj [("enabledTools",
                     JArr [JStr "pg_manage_rls"; JStr "pg_rename"; JStr "pg_manage_rls"])]))
          [manageFunctionsTool; manageRLSTool]))
  = ["pg_manage_rls"]
  /\ snd (toolsToEnable_and_log
            (example_process None None (Some "tools.json")
               (JObj [("enabledTools",
                       JArr [JStr "pg_manage_rls"; JStr "pg_rename"; JStr "pg_manage_rls"])]))
            [manageFunctionsTool; manageRLSTool])
     = [console_error
          "[MCP Info] Loaded tools configuration from tools.json. Enabled tools: pg_manage_rls";
        console_warn
          ("[MCP Warning] Tool " ++ dq ++ "pg_rename" ++ dq
           ++ " specified in config file but not found in available tools.")].
Proof.
  split; [|reflexivity].
  destruct (proj1 (@loadAndFilterTools_enabled_set
                     (example_process None None (Some "tools.json")
                        (JObj [("enabledTools",
                                JArr [JStr "pg_manage_rls"; JStr "pg_rename";
                                      JStr "pg_manage_rls"])]))
                     [manageFunctionsTool; manageRLSTool])
              "tools.json"
              (JObj [("enabledTools",
                      JArr [JStr "pg_manage_rls"; JStr "pg_rename"; JStr "pg_manage_rls"])])
              ["pg_manage_rls"; "pg_rename"; "pg_manage_rls"]
              eq_refl
              (fun H : "tools.json" = EmptyString =>
                 eq_ind "tools.json"
                   (fun s => match s with EmptyString => False | String _ _ => True end)
                   I EmptyString H)
              eq_refl eq_refl)
    as (_ & Henabled & _).
  rewrite Henabled. reflexivity.
Defined.

(* ================================================================== *)
(** * Listing the enabled tools                                         *)
(* ================================================================== *)

(** With an allow-list of one name, what is listed are the registry's
    tools of that name. *)
Lemma listTools_one_name p tools n :
  allow_list p = Some [n] ->
  listTools (run p (new_PostgreSQLServer p tools))
  = map (fun tool => mkDescriptor (name tool) (description tool) (inputSchema tool))
      (filter (fun tool => String.eqb (name tool) n) tools).
Proof.
  intros HL. unfold listTools.
  rewrite enabledTools_run, enabledTools_new, HL. f_equal.
  apply filter_ext. intros tool. cbn. now rewrite orb_false_r.
Qed.

(** The scenario of the specification: a registry that has the
    consolidated tool lists exactly that descriptor. *)
Example listTools_scenario_with_consolidated_registry :
  map d_name
    (listTools
       (run (example_process None None (Some "tools.json") only_manage_functions)
          (new_PostgreSQLServer
             (example_process None None (Some "tools.json") only_manage_functions)
             [analyzeDatabaseTool example_numbers; manageFunctionsTool;
              manageRLSTool])))
  = ["pg_manage_functions"].
Proof. reflexivity. Qed.

(** C4.  With the allow-list [pg_manage_functions] and the registry of
    [index.ts], nothing is listed: [allTools] registers the three narrow
    function tools and not the consolidated one, so no enabled tool has
    that name. *)
Theorem listTools_allTools_manage_functions_only p num ext path :
  non_empty (options_toolsConfig p) = Some path ->
  read_and_parse p path = Returned only_manage_functions ->
  has_tool_named (imported_list ext) "pg_manage_functions" = false ->
  listTools (serverInstance p num ext) = [].
Proof.
  intros Hpath Hfile Hext. unfold serverInstance.
  rewrite (listTools_one_name p (allTools num ext) (n := "pg_manage_functions")).
  2:{ unfold allow_list. now rewrite Hpath, Hfile. }
  unfold allTools. rewrite filter_app. cbn [filter name analyzeDatabaseTool
    getFunctionsTool createFunctionTool dropFunctionTool enableRLSTool
    disableRLSTool createRLSPolicyTool dropRLSPolicyTool editRLSPolicyTool
    getRLSPoliciesTool String.eqb Ascii.eqb Bool.eqb app].
  replace (filter (fun tool => String.eqb (name tool) "pg_manage_functions")
             (imported_list ext)) with (@nil PostgresTool); [reflexivity|].
  symmetry. unfold has_tool_named in Hext.
  induction (imported_list ext) as [|t l IH]; [reflexivity|].
  cbn [existsb filter] in *. apply orb_false_iff in Hext as [Ht Hl].
  rewrite Ht. auto.
Qed.

Lemma listTools_allTools_manage_functions_only_witness :
  listTools
    (serverInstance
       (example_process None None (Some "tools.json") only_manage_functions)
       example_numbers example_imports)
  = [].
Proof.
  apply (@listTools_allTools_manage_functions_only
           (example_process None None (Some "tools.json") only_manage_functions)
           example_numbers example_imports "tools.json");
    reflexivity.
Defined.

(* ================================================================== *)
(** * Names that are not enabled                                        *)
(* ================================================================== *)

Section Lookup.

Lemma own_get_set_other props k k' t :
  k <> k' -> own_get (own_set props k' t) k = own_get props k.
Proof.
  intros Hne. induction props as [|[k0 t0] props IH]; simpl.
  - destruct (String.eqb k k') eqn:E; [|reflexivity].
    apply String.eqb_eq in E. contradiction.
  - destruct (String.eqb k' k0) eqn:E0; simpl.
    + apply String.eqb_eq in E0. subst k0.
      destruct (String.eqb k k') eqn:E; [|reflexivity].
      apply String.eqb_eq in E. contradiction.
    + now rewrite IH.
Qed.

(** A name no enabled tool has is no own property of the record. *)
Lemma own_get_not_enabled enabled r k :
  has_tool_named enabled k = false ->
  own_get (own (fold_left add_tool enabled r)) k = own_get (own r) k.
Proof.
  revert r. induction enabled as [|t enabled IH]; intros r H; [reflexivity|].
  cbn [has_tool_named existsb] in H. apply orb_false_iff in H as [Ht H].
  cbn [fold_left]. rewrite (IH _ H). unfold add_tool, record_set.
  destruct (String.eqb (name t) "__proto__"); cbn [own]; [reflexivity|].
  apply own_get_set_other. intros ->. now rewrite String.eqb_refl in Ht.
Qed.

(** Without a tool named [__proto__] the prototype stays
    [Object.prototype]. *)
Lemma proto_not_set enabled r :
  has_tool_named enabled "__proto__" = false ->
  proto (fold_left add_tool enabled r) = proto r.
Proof.
  revert r. induction enabled as [|t enabled IH]; intros r H; [reflexivity|].
  cbn [has_tool_named existsb] in H. apply orb_false_iff in H as [Ht H].
  cbn [fold_left]. rewrite (IH _ H). unfold add_tool, record_set.
  now rewrite Ht.
Qed.

Lemma has_tool_named_filter f tools k :
  has_tool_named tools k = false -> has_tool_named (filter f tools) k = false.
Proof.
  unfold has_tool_named. induction tools as [|t tools IH]; [reflexivity|].
  cbn [existsb filter]. intros H. apply orb_false_iff in H as [Ht H].
  destruct (f t); cbn [existsb]; rewrite ?Ht; auto.
Qed.

(** The enabled tools are taken from the registry. *)
Lemma enabled_from_registry p tools k :
  has_tool_named tools k = false ->
  has_tool_named (enabledTools (new_PostgreSQLServer p tools)) k = false.
Proof.
  intros H. rewrite enabledTools_new.
  destruct (allow_list p) as [L|]; [now apply has_tool_named_filter|exact H].
Qed.

Lemma enabledToolsMap_new p tools :
  enabledToolsMap (new_PostgreSQLServer p tools)
  = fold_left add_tool (enabledTools (new_PostgreSQLServer p tools)) empty_record.
Proof.
  unfold new_PostgreSQLServer, loadAndFilterTools.
  destruct (toolsToEnable_and_log p _). reflexivity.
Qed.

(** A member of [Object.prototype] other than [__proto__] is found on
    every record that has no own property of that name. *)
Lemma inherited_member_found r n :
  In n Object_prototype_keys -> n <> "__proto__" ->
  own_get (own r) n = None ->
  record_get r n = POther true.
Proof.
  intros Hin Hne Hown. unfold record_get. rewrite Hown.
  cbn in Hin.
  repeat destruct Hin as [<-|Hin]; try contradiction; try (now elim Hne);
    destruct (proto r); reflexivity.
Qed.

End Lookup.

(** C2, at the names a plain object inherits.  A call for a name such
    as [constructor] that no registered tool has does not get a
    not-found message: the lookup in the record finds the inherited
    member, the call of its missing [execute] is a [TypeError], and the
    envelope carries that message. *)
Theorem callTool_inherited_name p tools n args w :
  In n Object_prototype_keys -> n <> "__proto__" ->
  has_tool_named tools n = false ->
  callTool p (new_PostgreSQLServer p tools) (mkRequest n args) w
  = (Returned (error_output "Error: tool.execute is not a function"), w).
Proof.
  intros Hin Hne Hn. unfold callTool. cbn [params_name params_arguments].
  rewrite inherited_member_found; auto.
  rewrite enabledToolsMap_new, own_get_not_enabled; [reflexivity|].
  now apply enabled_from_registry.
Qed.

Lemma callTool_inherited_name_witness :
  callTool (example_process None None None JNull)
    (new_PostgreSQLServer (example_process None None None JNull)
       (allTools example_numbers example_imports))
    (mkRequest "constructor" (JObj [])) quiet_world
  = (Returned (error_output "Error: tool.execute is not a function"), quiet_world)
  /\ output_text (error_output "Error: tool.execute is not a function")
     <> "Error: " ++ error_message
                       (McpError ErrorCode_MethodNotFound (not_found_message "constructor"))
  /\ output_text (error_output "Error: tool.execute is not a function")
     <> "Error: " ++ error_message
                       (McpError ErrorCode_MethodNotFound (not_enabled_message "constructor")).
Proof.
  split; [|split; discriminate].
  apply (@callTool_inherited_name (example_process None None None JNull)
           (allTools example_numbers example_imports) "constructor" (JObj [])
           quiet_world).
  - cbn. tauto.
  - discriminate.
  - reflexivity.
Defined.

(** For every other name the lookup misses as intended: a name that the
    record does not inherit and that is not enabled gets the not-found
    error, worded differently for a registered tool that the allow-list
    leaves out, and no tool runs. *)
Lemma callTool_not_enabled p tools n args w :
  has_tool_named tools "__proto__" = false ->
  existsb (String.eqb n) Object_prototype_keys = false ->
  has_tool_named (enabledTools (new_PostgreSQLServer p tools)) n = false ->
  callTool p (new_PostgreSQLServer p tools) (mkRequest n args) w
  = (Returned
       (error_output
          ("Error: " ++ error_message
             (McpError ErrorCode_MethodNotFound
                (if has_tool_named tools n then not_enabled_message n
                 else not_found_message n)))), w)
  /\ not_enabled_message n <> not_found_message n.
Proof.
  intros Hproto Hkeys Hn. split; [|discriminate].
  unfold callTool. cbn [params_name params_arguments].
  assert (Hne : String.eqb n "__proto__" = false).
  { cbn [existsb Object_prototype_keys] in Hkeys.
    repeat (apply orb_false_iff in Hkeys as [? Hkeys]). assumption. }
  unfold record_get. rewrite Hne.
  rewrite enabledToolsMap_new, own_get_not_enabled by assumption.
  rewrite proto_not_set by now apply enabled_from_registry.
  cbn [own proto empty_record own_get]. unfold object_prototype_member.
  rewrite Hkeys.
  rewrite availableToolsList_new. unfold try_catch, throw, ret. reflexivity.
Qed.

(* ================================================================== *)
(** * Resolving the connection string                                   *)
(* ================================================================== *)

Section Traces.

Lemma extends_ret {A} (a : A) : extends (ret a).
Proof. intros w. exists []. cbn. now rewrite app_nil_r. Qed.

Lemma extends_throw {A} e : extends (@throw A e).
Proof. intros w. exists []. cbn. now rewrite app_nil_r. Qed.

Lemma extends_bind {A B} (m : M A) (k : A -> M B) :
  extends m -> (forall a, extends (k a)) -> extends (bind m k).
Proof.
  intros Hm Hk w. unfold bind. destruct (Hm w) as [evs Hevs].
  destruct (m w) as [[a|e] w1]; cbn [snd] in *.
  - destruct (Hk a w1) as [evs' Hevs']. exists (evs ++ evs')%list.
    now rewrite Hevs', Hevs, app_assoc.
  - now exists evs.
Qed.

Lemma extends_try_catch {A} (m : M A) h :
  extends m -> (forall e, extends (h e)) -> extends (try_catch m h).
Proof.
  intros Hm Hh w. unfold try_catch. destruct (Hm w) as [evs Hevs].
  destruct (m w) as [[a|e] w1]; cbn [snd] in *.
  - now exists evs.
  - destruct (Hh e w1) as [evs' Hevs']. exists (evs ++ evs')%list.
    now rewrite Hevs', Hevs, app_assoc.
Qed.

Lemma extends_try_finally {A B} (m : M A) (f : M B) :
  extends m -> extends f -> extends (try_finally m f).
Proof.
  intros Hm Hf w. unfold try_finally. destruct (Hm w) as [evs Hevs].
  destruct (m w) as [r w1]; cbn [snd] in *.
  destruct (Hf w1) as [evs' Hevs'].
  exists (evs ++ evs')%list.
  destruct (f w1) as [[b|e] w2]; cbn [snd] in *;
    now rewrite Hevs', Hevs, app_assoc.
Qed.

Lemma extends_db_connect cs : extends (db_connect cs).
Proof.
  intros w. exists [EvConnect cs]. unfold db_connect.
  destruct (next_reply w) as [[rows|e] rest]; reflexivity.
Qed.

Lemma extends_db_query sql params : extends (db_query sql params).
Proof.
  intros w. exists [EvQuery sql params]. unfold db_query.
  destruct (next_reply w) as [[rows|e] rest]; reflexivity.
Qed.

Lemma extends_db_disconnect : extends db_disconnect.
Proof. intros w. now exists [EvDisconnect]. Qed.

Lemma extends_failed what e : extends (failed what e).
Proof. apply extends_ret. Qed.

Lemma extends_read_prop v k : extends (read_prop v k).
Proof. destruct v; first [apply extends_ret | apply extends_throw]. Qed.

Lemma extends_reduce_rows entry rows acc :
  (forall row, extends (entry row)) -> extends (reduce_rows entry rows acc).
Proof.
  intros He. revert acc. induction rows as [|row rows IH]; intros acc; cbn.
  - apply extends_ret.
  - apply extends_bind; auto.
Qed.

(** The connect comes first when the operation opens with it. *)
Lemma starts_with_connect_bind {A} cs (k : unit -> M A) :
  (forall u, extends (k u)) -> starts_with_connect cs (bind (db_connect cs) k).
Proof.
  intros Hk w. unfold bind. unfold db_connect at 1.
  destruct (next_reply w) as [[rows|e] rest].
  - destruct (Hk tt (mkWorld true (db_trace w ++ [EvConnect cs]) rest))
      as [evs Hevs].
    exists evs. rewrite Hevs. cbn [db_trace]. now rewrite <- app_assoc.
  - now exists [].
Qed.

Lemma starts_with_connect_try_catch {A} cs (m : M A) h :
  starts_with_connect cs m -> (forall e, extends (h e)) ->
  starts_with_connect cs (try_catch m h).
Proof.
  intros Hm Hh w. unfold try_catch. destruct (Hm w) as [rest Hrest].
  destruct (m w) as [[a|e] w1]; cbn [snd] in *.
  - now exists rest.
  - destruct (Hh e w1) as [evs Hevs]. exists (rest ++ evs)%list.
    rewrite Hevs, Hrest, <- app_assoc. reflexivity.
Qed.

Lemma starts_with_connect_try_finally {A B} cs (m : M A) (f : M B) :
  starts_with_connect cs m -> extends f ->
  starts_with_connect cs (try_finally m f).
Proof.
  intros Hm Hf w. unfold try_finally. destruct (Hm w) as [rest Hrest].
  destruct (m w) as [r w1]; cbn [snd] in *.
  destruct (Hf w1) as [evs Hevs]. exists (rest ++ evs)%list.
  destruct (f w1) as [[b|e] w2]; cbn [snd] in *;
    rewrite Hevs, Hrest, <- app_assoc; reflexivity.
Qed.

Lemma starts_with_connect_then {A B} cs (m : M A) (k : A -> M B) :
  starts_with_connect cs m -> (forall a, extends (k a)) ->
  starts_with_connect cs (bind m k).
Proof.
  intros Hm Hk w. unfold bind. destruct (Hm w) as [rest Hrest].
  destruct (m w) as [[a|e] w1]; cbn [snd] in *.
  - destruct (Hk a w1) as [evs Hevs]. exists (rest ++ evs)%list.
    rewrite Hevs, Hrest, <- app_assoc. reflexivity.
  - now exists rest.
Qed.

Lemma starts_connects_with {A} cs (m : M A) :
  starts_with_connect cs m -> connects_with cs m.
Proof. intros H w. right. apply H. Qed.

Lemma pure_connects_with {A} cs (m : M A) : pure m -> connects_with cs m.
Proof. intros H w. left. apply H. Qed.

Lemma pure_ret {A} (a : A) : pure (ret a).
Proof. intros w. reflexivity. Qed.

(** What follows a step that changes nothing decides. *)
Lemma connects_with_after_return {A B} cs (m : M A) (k : A -> M B) a :
  (forall w, m w = (Returned a, w)) -> connects_with cs (k a) ->
  connects_with cs (bind m k).
Proof. intros Hm Hk w. unfold bind. rewrite Hm. apply Hk. Qed.

(** A step that changes nothing, after the operation, keeps the
    connect first. *)
Lemma connects_with_then_pure {A B} cs (m : M A) (k : A -> M B) :
  connects_with cs m -> (forall a, pure (k a)) -> connects_with cs (bind m k).
Proof.
  intros Hm Hk w. unfold bind. specialize (Hm w).
  destruct (m w) as [[a|e] w1]; cbn [snd] in *; [|exact Hm].
  rewrite (Hk a w1). exact Hm.
Qed.

Lemma connects_with_try_catch_pure {A} cs (m : M A) h :
  connects_with cs m -> (forall e, pure (h e)) -> connects_with cs (try_catch m h).
Proof.
  intros Hm Hh w. unfold try_catch. specialize (Hm w).
  destruct (m w) as [[a|e] w1]; cbn [snd] in *; [exact Hm|].
  rewrite (Hh e w1). exact Hm.
Qed.

End Traces.

Create HintDb traces.
#[local] Hint Resolve extends_ret extends_throw extends_db_connect
  extends_db_query extends_db_disconnect extends_failed extends_read_prop
  pure_ret : traces.

(** Walking through a computation built from the steps above. *)
Ltac extends_tac :=
  cbv zeta;
  repeat (intros;
          lazymatch goal with
          | |- extends (bind _ _) => apply extends_bind
          | |- extends (try_catch _ _) => apply extends_try_catch
          | |- extends (try_finally _ _) => apply extends_try_finally
          | |- extends (reduce_rows _ _ _) => apply extends_reduce_rows
          | |- extends (if ?b then _ else _) => destruct b
          | |- extends (match ?x with _ => _ end) => destruct x
          | |- extends _ => solve [auto with traces]
          end).

(** The shape of every database operation: connect, work and catch
    inside a [finally] that disconnects. *)
Ltac operation_tac :=
  apply starts_with_connect_try_finally; [|auto with traces];
  apply starts_with_connect_try_catch; [|auto with traces];
  apply starts_with_connect_bind; extends_tac.

Section OperationsConnectFirst.

Variable cs : jsval.

Lemma _getFunctions_connects a b : starts_with_connect cs (_getFunctions cs a b).
Proof. unfold _getFunctions. operation_tac. Qed.

Lemma _createFunction_connects a b c d o :
  starts_with_connect cs (_createFunction cs a b c d o).
Proof. unfold _createFunction. operation_tac. Qed.

Lemma _dropFunction_connects a b o : starts_with_connect cs (_dropFunction cs a b o).
Proof. unfold _dropFunction. operation_tac. Qed.

Lemma _enableRLS_connects a b : starts_with_connect cs (_enableRLS cs a b).
Proof. unfold _enableRLS. operation_tac. Qed.

Lemma _disableRLS_connects a b : starts_with_connect cs (_disableRLS cs a b).
Proof. unfold _disableRLS. operation_tac. Qed.

Lemma _createRLSPolicy_connects a b c d o :
  starts_with_connect cs (_createRLSPolicy cs a b c d o).
Proof. unfold _createRLSPolicy. operation_tac. Qed.

Lemma _dropRLSPolicy_connects a b o :
  starts_with_connect cs (_dropRLSPolicy cs a b o).
Proof. unfold _dropRLSPolicy. operation_tac. Qed.

Lemma _editRLSPolicy_connects a b o :
  starts_with_connect cs (_editRLSPolicy cs a b o).
Proof.
  unfold _editRLSPolicy. operation_tac.
  unfold rolesString. extends_tac.
Qed.

Lemma _getRLSPolicies_connects a b :
  starts_with_connect cs (_getRLSPolicies cs a b).
Proof. unfold _getRLSPolicies. operation_tac. Qed.

Lemma analyzeDatabase_connects num t :
  starts_with_connect cs (analyzeDatabase num cs t).
Proof.
  unfold analyzeDatabase. apply starts_with_connect_bind. intros _.
  unfold getVersion, getSettings, getMetrics, generateRecommendations,
    first_row_prop.
  extends_tac.
Qed.

End OperationsConnectFirst.

Create HintDb connects.
#[local] Hint Resolve _getFunctions_connects _createFunction_connects
  _dropFunction_connects _enableRLS_connects _disableRLS_connects
  _createRLSPolicy_connects _dropRLSPolicy_connects _editRLSPolicy_connects
  _getRLSPolicies_connects analyzeDatabase_connects : connects.

(** Resolution never touches the world, and gives what [resolved]
    says. *)
Lemma getConnectionString_resolved p arg w :
  getConnectionString p arg w
  = match resolved p arg with
    | Some cs => (Returned cs, w)
    | None =>
        (Threw (McpError ErrorCode_InvalidParams no_connection_string_message), w)
    end.
Proof.
  unfold getConnectionString, resolved, first_non_empty.
  destruct (truthy arg); [reflexivity|].
  destruct (non_empty (options_connectionString p)); [reflexivity|].
  destruct (non_empty (env_POSTGRES_CONNECTION_STRING p)); reflexivity.
Qed.

Ltac pure_tac :=
  repeat (intros;
          lazymatch goal with
          | |- pure (if ?b then _ else _) => destruct b
          | |- pure (ret _) => apply pure_ret
          end).

(** Walking through the [execute] of a tool once its connection string
    is known to resolve to [cs]. *)
Ltac tool_tac Hres :=
  cbv zeta;
  repeat lazymatch goal with
    | |- connects_with _ (bind (destructure (JObj ?f)) _) =>
        apply connects_with_after_return with (a := JObj f);
        [reflexivity|]; cbv zeta
    | |- connects_with ?cs (bind (getConnectionString _ _) _) =>
        apply connects_with_after_return with (a := cs);
        [intros; rewrite getConnectionString_resolved, Hres; reflexivity|]
    | |- connects_with _ (try_catch _ _) =>
        apply connects_with_try_catch_pure; [|intros; apply pure_ret]
    | |- connects_with _ (if ?b then _ else _) => destruct b
    | |- connects_with _ (match ?x with _ => _ end) => destruct x
    | |- connects_with _ (ret _) => apply pure_connects_with, pure_ret
    | |- connects_with _ (bind _ _) =>
        apply connects_with_then_pure;
        [apply starts_connects_with; auto with connects | pure_tac]
    end.

(** Every tool of the sources connects with the connection string its
    call resolved to, if it connects at all. *)
Lemma source_tools_connect_with_resolved p num tool fields cs :
  In tool (source_tools num) ->
  resolved p (get_prop (JObj fields) "connectionString") = Some cs ->
  connects_with cs (execute tool (JObj fields) (getConnectionString p)).
Proof.
  intros Hin Hres. cbn [source_tools In] in Hin.
  repeat destruct Hin as [<-|Hin]; try contradiction;
    cbn [execute analyzeDatabaseTool getFunctionsTool createFunctionTool
           dropFunctionTool enableRLSTool disableRLSTool createRLSPolicyTool
           dropRLSPolicyTool editRLSPolicyTool getRLSPoliciesTool
           manageFunctionsTool manageRLSTool];
    unfold manageFunctionsTool_execute, manageRLSTool_execute;
    tool_tac Hres.
Qed.

(** Without a connection string at any level the tools of the sources
    throw the configuration error before they touch the database (the
    analysis tool may reject its arguments first). *)
Lemma source_tools_unresolved p num tool fields w :
  In tool (source_tools num) ->
  resolved p (get_prop (JObj fields) "connectionString") = None ->
  execute tool (JObj fields) (getConnectionString p) w
  = (Threw (McpError ErrorCode_InvalidParams no_connection_string_message), w)
  \/ (name tool = "pg_analyze_database"
      /\ exists out,
           execute tool (JObj fields) (getConnectionString p) w = (Returned out, w)
           /\ isError out = true).
Proof.
  intros Hin Hres. cbn [source_tools In] in Hin.
  repeat destruct Hin as [<-|Hin]; try contradiction;
    cbn [execute analyzeDatabaseTool getFunctionsTool createFunctionTool
           dropFunctionTool enableRLSTool disableRLSTool createRLSPolicyTool
           dropRLSPolicyTool editRLSPolicyTool getRLSPoliciesTool
           manageFunctionsTool manageRLSTool name];
    unfold manageFunctionsTool_execute, manageRLSTool_execute;
    unfold bind, destructure, ret; cbv beta iota;
    try (left; rewrite getConnectionString_resolved, Hres; reflexivity).
  destruct (valid_analysisType (get_prop (JObj fields) "analysisType")).
  - left. rewrite getConnectionString_resolved, Hres. reflexivity.
  - right. split; [reflexivity|]. eexists. split; reflexivity.
Qed.

(** C7.  The connection string of a call is the first non-empty of the
    [connectionString] argument, the command-line default and the
    environment default, and resolving it changes nothing.  Every tool
    of the sources, called through the handler with an arguments object,
    connects with the resolved string and no other; when nothing
    resolves at any level the call comes back as an error envelope
    (the configuration error, or for the analysis tool possibly its
    own argument error), with the database untouched and the handler
    returned as for any other call. *)
Theorem connection_string_precedence p :
  (forall (arg : option string) w,
     getConnectionString p (of_option arg) w
     = match first_non_empty [arg; options_connectionString p;
                              env_POSTGRES_CONNECTION_STRING p] with
       | Some s => (Returned (JStr s), w)
       | None =>
           (Threw (McpError ErrorCode_InvalidParams no_connection_string_message), w)
       end)
  /\ (forall num srv request tool fields,
        In tool (source_tools num) ->
        record_get (enabledToolsMap srv) (params_name request) = PTool tool ->
        params_arguments request = JObj fields ->
        match resolved p (get_prop (JObj fields) "connectionString") with
        | Some cs => connects_with cs (callTool p srv request)
        | None =>
            forall w, exists out,
              callTool p srv request w = (Returned out, w)
              /\ isError out = true
              /\ (output_text out
                  = "Error: " ++ error_message
                      (McpError ErrorCode_InvalidParams no_connection_string_message)
                  \/ name tool = "pg_analyze_database")
        end).
Proof.
  split.
  - intros arg w. unfold getConnectionString, first_non_empty, of_option.
    destruct arg as [[|c s]|];
      cbn [truthy string_is_empty negb non_empty]; try reflexivity;
      destruct (non_empty (options_connectionString p)); try reflexivity;
      destruct (non_empty (env_POSTGRES_CONNECTION_STRING p)); reflexivity.
  - intros num srv request tool fields Hin Hget Hargs.
    destruct (resolved p (get_prop (JObj fields) "connectionString")) as [cs|] eqn:Hres.
    + unfold callTool. rewrite Hget, Hargs. cbv zeta.
      apply connects_with_try_catch_pure; [|intros; apply pure_ret].
      apply connects_with_then_pure; [|intros; apply pure_ret].
      now apply source_tools_connect_with_resolved with (num := num).
    + intros w. unfold callTool. rewrite Hget, Hargs. cbv zeta.
      unfold try_catch, bind.
      destruct (@source_tools_unresolved p num tool fields w Hin Hres)
        as [-> | [Hname [out [-> Herr]]]].
      * eexists. split; [reflexivity|]. split; [reflexivity|]. now left.
      * exists out. split; [reflexivity|]. split; [assumption|]. now right.
Qed.

(* ================================================================== *)
(** * What a message names                                              *)
(* ================================================================== *)

Section Substrings.

Lemma substring_0_app sub post :
  substring 0 (String.length sub) (sub ++ post) = sub.
Proof. induction sub as [|c sub IH]; cbn; [now destruct post|now rewrite IH]. Qed.

Lemma substring_skip pre n s :
  substring (String.length pre) n (pre ++ s) = substring 0 n s.
Proof. induction pre as [|c pre IH]; cbn; auto. Qed.

Lemma index_0_empty s : index 0 EmptyString s = Some 0.
Proof. destruct s; reflexivity. Qed.

(** A substring is found by the search. *)
Lemma Contains_containsb s sub : Contains s sub -> containsb s sub = true.
Proof.
  intros [pre [post ->]]. unfold containsb.
  destruct sub as [|c sub]; [now rewrite index_0_empty|].
  destruct (index 0 (String c sub) (pre ++ String c sub ++ post)) eqn:E;
    [reflexivity|].
  exfalso.
  apply (index_correct3 0 (String.length pre) _ _ E); [discriminate|lia|].
  now rewrite substring_skip, substring_0_app.
Qed.

Lemma substring_Contains m s sub :
  substring m (String.length sub) s = sub -> Contains s sub.
Proof.
  revert s. induction m as [|m IH]; intros s H.
  - exists EmptyString. cbn [append].
    revert s H. induction sub as [|c sub IHsub]; intros s H.
    + now exists s.
    + destruct s as [|c' s]; cbn in H; [discriminate|].
      injection H as -> H. destruct (IHsub s H) as [post ->].
      now exists post.
  - destruct s as [|c s]; cbn in H.
    + destruct sub; [|discriminate]. now exists EmptyString, EmptyString.
    + destruct (IH s H) as [pre [post ->]]. now exists (String c pre), post.
Qed.

(** What the search finds is a substring. *)
Lemma containsb_Contains s sub : containsb s sub = true -> Contains s sub.
Proof.
  unfold containsb. destruct (index 0 sub s) as [m|] eqn:E; [|discriminate].
  intros _. apply substring_Contains with (m := m).
  now apply index_correct1 with (n := 0).
Qed.

Lemma Contains_app_r a s sub : Contains s sub -> Contains (a ++ s) sub.
Proof.
  intros [pre [post ->]]. exists (a ++ pre), post.
  now rewrite string_app_assoc.
Qed.

End Substrings.

(** A name inside a message that ends in fixed text. *)
Ltac contains_tac :=
  repeat first [ apply containsb_Contains; reflexivity | apply Contains_app_r ].

(* ================================================================== *)
(** * The operation router                                              *)
(* ================================================================== *)

(** Entering the handler for a call whose name resolves to a tool and
    whose arguments are an object. *)
Ltac enter_callTool Hget Hargs :=
  unfold callTool; rewrite Hget, Hargs; cbv zeta;
  cbn [execute manageFunctionsTool manageRLSTool];
  unfold manageFunctionsTool_execute, manageRLSTool_execute;
  unfold try_catch, bind, destructure, ret; cbv beta iota zeta;
  rewrite getConnectionString_resolved.




(** C6, as the code has it.  In every branch of a consolidated tool
    that checks for fields, a call that leaves out at least one of them
    (or passes a falsy value) executes nothing on the database and
    comes back as one error envelope.  When the call resolves a
    connection string the message names every field that is left out;
    when it resolves none, the message is the configuration error. *)
Theorem missing_fields_all_named p srv request tool op required fields w :
  In (tool, op, required) wide_branches ->
  record_get (enabledToolsMap srv) (params_name request) = PTool tool ->
  params_arguments request = JObj fields ->
  get_prop (JObj fields) "operation" = JStr op ->
  (exists f, In f required /\ truthy (get_prop (JObj fields) f) = false) ->
  exists out,
    callTool p srv request w = (Returned out, w)
    /\ isError out = true
    /\ match resolved p (get_prop (JObj fields) "connectionString") with
       | Some _ =>
           forall f, In f required ->
                     truthy (get_prop (JObj fields) f) = false ->
                     Contains (output_text out) f
       | None =>
           output_text out
           = "Error: " ++ error_message
               (McpError ErrorCode_InvalidParams no_connection_string_message)
       end.
Proof.
  intros Hin Hget Hargs Hop [f0 [Hf0 Hfalsy]]. cbn [wide_branches In] in Hin.
  repeat destruct Hin as [Hin|Hin]; try contradiction;
    injection Hin as <- <- <-;
    enter_callTool Hget Hargs;
    destruct (resolved p (get_prop (JObj fields) "connectionString"));
    try (eexists; split; [reflexivity|]; split; reflexivity);
    rewrite Hop; cbn [is_str String.eqb Ascii.eqb Bool.eqb];
    unfold missing;
    cbn [In] in Hf0;
    repeat match goal with
           | |- context [truthy (get_prop (JObj fields) ?k)] =>
               destruct (truthy (get_prop (JObj fields) k)) eqn:?
           end;
    cbn [negb orb app length Nat.ltb Nat.leb];
    try (exfalso; repeat destruct Hf0 as [<-|Hf0]; try contradiction; congruence);
    (eexists; split; [reflexivity|]; split; [reflexivity|]);
    intros f Hf Hff; cbn [In] in Hf;
    cbn [output_text error_output content text];
    repeat destruct Hf as [<-|Hf]; try contradiction; try congruence;
    contains_tac.
Qed.

(** The scenario: [create] with empty [parameters] and none of the
    three required fields, on a server with a default connection
    string. *)
Lemma missing_fields_all_named_witness :
  exists out,
    callTool cli_default (wide_server cli_default)
      (mkRequest "pg_manage_functions"
         (JObj [("operation", JStr "create"); ("parameters", JStr EmptyString)]))
      quiet_world
    = (Returned out, quiet_world)
    /\ isError out = true
    /\ Contains (output_text out) "functionName"
    /\ Contains (output_text out) "returnType"
    /\ Contains (output_text out) "functionBody".
Proof.
  destruct (@missing_fields_all_named cli_default (wide_server cli_default)
              (mkRequest "pg_manage_functions"
                 (JObj [("operation", JStr "create");
                        ("parameters", JStr EmptyString)]))
              manageFunctionsTool "create"
              ["functionName"; "returnType"; "functionBody"]
              [("operation", JStr "create"); ("parameters", JStr EmptyString)]
              quiet_world)
    as [out [Hcall [Herr Hnames]]].
  - cbn. tauto.
  - reflexivity.
  - reflexivity.
  - reflexivity.
  - exists "functionName". split; [cbn; tauto | reflexivity].
  - exists out. split; [exact Hcall|]. split; [exact Herr|].
    cbn [resolved cli_default example_process options_connectionString
           env_POSTGRES_CONNECTION_STRING get_prop assoc String.eqb Ascii.eqb
           Bool.eqb truthy first_non_empty non_empty string_is_empty option_map]
      in Hnames.
    repeat split; apply Hnames; cbn; tauto.
Defined.

(** C6 as it is stated fails where no connection string resolves: the
    same call then gets the configuration error, which names none of the
    fields. *)
Lemma missing_fields_without_connection_string :
  callTool no_defaults (wide_server no_defaults)
    (mkRequest "pg_manage_functions"
       (JObj [("operation", JStr "create"); ("parameters", JStr EmptyString)]))
    quiet_world
  = (Returned
       (error_output
          ("Error: MCP error -32602: " ++ no_connection_string_message)),
     quiet_world)
  /\ ~ Contains
         (output_text
            (error_output
               ("Error: MCP error -32602: " ++ no_connection_string_message)))
         "functionName".
Proof.
  split; [reflexivity|].
  intros H. apply Contains_containsb in H. discriminate H.
Qed.

(* ================================================================== *)
(** * Values in the SQL text                                            *)
(* ================================================================== *)

(** [_getFunctions] binds what the caller supplies: the statement is one
    of two fixed texts, and the schema and the function name travel as
    the parameters [$1] and [$2]. *)
Lemma _getFunctions_binds_values cs functionName schema w sql params :
  In (EvQuery sql params) (events_of (_getFunctions cs functionName schema) w) ->
  (sql = sql_getFunctions ++ " ORDER BY p.proname"
   /\ params = [default_arg schema (JStr "public")])
  \/ (sql = (sql_getFunctions ++ " AND p.proname = $2") ++ " ORDER BY p.proname"
      /\ params = [default_arg schema (JStr "public"); functionName]).
Proof.
  unfold _getFunctions, events_of. step_monad.
  destruct (truthy functionName);
    destruct (db_script w) as [|[rows|e] [|[rows'|e'] rest]];
    step_monad; new_events;
    intros H; repeat destruct H as [H|H]; try discriminate H; try contradiction;
    injection H as <- <-; auto.
Qed.

(** C8, at [getDatabaseComment].  The name of the object whose comment
    is read is written into the statement, between quotes in its WHERE
    clause, and the statement is sent with no parameters. *)
Theorem getDatabaseComment_interpolates cs objectName options w rows rest :
  db_script w = ReplyRows rows :: rest ->
  In (EvQuery
        (sql_comment_function objectName
           (js_String (js_or (co_schema options) (JStr "public")))) [])
    (events_of (getDatabaseComment cs "function" objectName options) w)
  /\ Contains
       (sql_comment_function objectName
          (js_String (js_or (co_schema options) (JStr "public"))))
       objectName
  /\ EndsWith
       (sql_comment_function objectName "public")
       ("WHERE pg_proc.proname = '" ++ objectName ++ "'
          AND pg_namespace.nspname = 'public'").
Proof.
  intros Hs. split; [|split].
  - unfold getDatabaseComment, events_of, comment_query_sql.
    cbn [String.eqb Ascii.eqb Bool.eqb]. step_monad. rewrite Hs. step_monad.
    destruct rest as [|[[|row rows']|e] rest]; step_monad;
      try (destruct row; unfold read_prop; step_monad);
      new_events; right; left; reflexivity.
  - unfold sql_comment_function. eexists _, _. reflexivity.
  - unfold sql_comment_function. cbn [append]. ends_with.
Qed.

Lemma getDatabaseComment_interpolates_witness :
  In (EvQuery (sql_comment_function "f' OR '1'='1" "public") [])
    (events_of
       (getDatabaseComment (JStr "postgresql://localhost:5432/db") "function"
          "f' OR '1'='1" no_comment_options)
       accepting_world).
Proof.
  apply (@getDatabaseComment_interpolates (JStr "postgresql://localhost:5432/db")
           "f' OR '1'='1" no_comment_options accepting_world [] [ReplyRows []]).
  reflexivity.
Defined.

(* ================================================================== *)
(** * Runs of the main properties                                       *)
(* ================================================================== *)

(** The command-line default is used when the call names no connection
    string, and a call that finds none at any level is answered with an
    error envelope. *)
Lemma connection_string_precedence_witness :
  getConnectionString cli_default (of_option None) quiet_world
  = (Returned (JStr "postgresql://localhost:5432/db"), quiet_world)
  /\ exists out,
       callTool no_defaults (wide_server no_defaults)
         (mkRequest "pg_manage_rls"
            (JObj [("operation", JStr "enable"); ("tableName", JStr "users")]))
         quiet_world
       = (Returned out, quiet_world)
       /\ isError out = true.
Proof.
  split.
  - apply (proj1 (connection_string_precedence cli_default) None quiet_world).
  - destruct (proj2 (connection_string_precedence no_defaults) example_numbers
                (wide_server no_defaults)
                (mkRequest "pg_manage_rls"
                   (JObj [("operation", JStr "enable");
                          ("tableName", JStr "users")]))
                manageRLSTool
                [("operation", JStr "enable"); ("tableName", JStr "users")]
                ltac:(cbn; tauto) eq_refl eq_refl quiet_world)
      as [out [Hcall [Herr _]]].
    exists out. split; assumption.
Defined.

(** Removing the comment of [public.users] sends the statement that
    sets it to the text NULL. *)
Lemma removeDatabaseComment_sets_text_NULL_witness :
  In (EvQuery "COMMENT ON TABLE public.users IS 'NULL'" [])
    (events_of
       (removeDatabaseComment (JStr "postgresql://localhost:5432/db") "table"
          "users" no_comment_options)
       accepting_world).
Proof.
  apply (proj2 (proj2 (removeDatabaseComment_sets_text_NULL
                         (JStr "postgresql://localhost:5432/db") "table" "users"
                         no_comment_options accepting_world))
           [] [ReplyRows []]).
  reflexivity.
Defined.

(* ================================================================== *)
(** * Further properties: comments                                      *)
(* ================================================================== *)

Lemma escape_quotes_value s : sql_literal_value (escape_quotes s) = s.
Proof.
  induction s as [|c s IH]; [reflexivity|].
  cbn [escape_quotes]. destruct (Ascii.eqb c "'") eqn:E.
  - apply Ascii.eqb_eq in E. subst c. cbn. now rewrite IH.
  - cbn [sql_literal_value]. rewrite E. now rewrite IH.
Qed.

Lemma escape_quotes_paired s : quotes_paired (escape_quotes s) = true.
Proof.
  induction s as [|c s IH]; [reflexivity|].
  cbn [escape_quotes]. destruct (Ascii.eqb c "'") eqn:E.
  - cbn. exact IH.
  - cbn [quotes_paired]. now rewrite E.
Qed.

(** X1.  Whatever the comment text, every statement [setDatabaseComment]
    sends carries it as a quoted literal in which no quote stands alone,
    and the value of that literal is the comment, quotes included: the
    text cannot end the literal early, and it is stored as given. *)
Theorem setDatabaseComment_quotes_comment cs objectType objectName comment
    options w sql params :
  In (EvQuery sql params)
    (events_of (setDatabaseComment cs objectType objectName comment options) w) ->
  exists target body,
    sql = "COMMENT ON " ++ target ++ " IS '" ++ body ++ "'"
    /\ quotes_paired body = true
    /\ sql_literal_value body = comment
    /\ params = [].
Proof.
  intros H. apply setDatabaseComment_queries in H as [Hparams [target Hsql]].
  exists target, (escape_quotes comment).
  split; [exact Hsql|]. split; [apply escape_quotes_paired|].
  split; [apply escape_quotes_value|exact Hparams].
Qed.

Lemma setDatabaseComment_quotes_comment_witness :
  exists target body,
    "COMMENT ON TABLE public.users IS 'it''s here'"
    = "COMMENT ON " ++ target ++ " IS '" ++ body ++ "'"
    /\ quotes_paired body = true
    /\ sql_literal_value body = "it's here"
    /\ @nil jsval = [].
Proof.
  apply (@setDatabaseComment_quotes_comment (JStr "postgresql://localhost:5432/db")
           "table" "users" "it's here" no_comment_options accepting_world).
  unfold events_of. cbn. right. left. reflexivity.
Defined.

Ltac case_objectType objectType :=
  repeat match goal with
         | |- context [String.eqb objectType ?l] =>
             let E := fresh "E" in
             destruct (String.eqb objectType l) eqn:E;
             [apply String.eqb_eq in E; subst objectType;
              cbn [String.eqb Ascii.eqb Bool.eqb existsb orb andb negb] |]
         end;
  cbn [String.eqb Ascii.eqb Bool.eqb existsb orb andb negb].

(** Building either statement changes nothing, and it succeeds exactly
    for an addressable object. *)
Lemma comment_on_sql_addressable objectType objectName escapedComment schema
    options w :
  exists r,
    comment_on_sql objectType objectName escapedComment schema options w = (r, w)
    /\ match r with
       | Returned _ => comment_addressable objectType options = true
       | Threw _ => comment_addressable objectType options = false
       end.
Proof.
  unfold comment_on_sql, comment_addressable, needs_parent, comment_types.
  cbn [existsb].
  case_objectType objectType;
    try destruct (truthy (co_parentObject options));
    cbn [negb orb andb]; eexists; split; reflexivity.
Qed.

Lemma comment_query_sql_addressable objectType objectName schema options w :
  exists r,
    comment_query_sql objectType objectName schema options w = (r, w)
    /\ match r with
       | Returned _ => comment_addressable objectType options = true
       | Threw _ => comment_addressable objectType options = false
       end.
Proof.
  unfold comment_query_sql, comment_addressable, needs_parent, comment_types.
  cbn [existsb].
  case_objectType objectType;
    try destruct (truthy (co_parentObject options));
    cbn [negb orb andb]; eexists; split; reflexivity.
Qed.

(** X2.  A comment that cannot be addressed (an object type outside the
    eight, or a column, policy, trigger or constraint without its
    table) is found out only after the connection is made: setting and
    reading it both connect, send no statement, disconnect and report a
    failure. *)
Theorem unaddressable_comment_sends_nothing cs objectType objectName comment
    options w :
  comment_addressable objectType options = false ->
  (exists r w',
     setDatabaseComment cs objectType objectName comment options w = (Returned r, w')
     /\ success r = false)
  /\ events_of (setDatabaseComment cs objectType objectName comment options) w
     = [EvConnect cs; EvDisconnect]
  /\ (exists r w',
        getDatabaseComment cs objectType objectName options w = (Returned r, w')
        /\ success r = false)
  /\ events_of (getDatabaseComment cs objectType objectName options) w
     = [EvConnect cs; EvDisconnect].
Proof.
  intros Hno.
  assert (Hset : forall w0, exists e,
             comment_on_sql objectType objectName (escape_quotes comment)
               (js_or (co_schema options) (JStr "public")) options w0
             = (Threw e, w0)).
  { intros w0.
    destruct (comment_on_sql_addressable objectType objectName
                (escape_quotes comment) (js_or (co_schema options) (JStr "public"))
                options w0) as [[sql|e] [Hrun Hok]]; [congruence|eauto]. }
  assert (Hget : forall w0, exists e,
             comment_query_sql objectType objectName
               (js_or (co_schema options) (JStr "public")) options w0
             = (Threw e, w0)).
  { intros w0.
    destruct (comment_query_sql_addressable objectType objectName
                (js_or (co_schema options) (JStr "public")) options w0)
      as [[sql|e] [Hrun Hok]]; [congruence|eauto]. }
  unfold setDatabaseComment, getDatabaseComment, events_of. step_monad.
  destruct (db_script w) as [|[rows|e] rest];
    repeat match goal with
           | |- context [comment_on_sql ?a ?b ?c ?d ?e ?w0] =>
               let e0 := fresh "e" in let H := fresh "H" in
               destruct (Hset w0) as [e0 H]; rewrite H
           | |- context [comment_query_sql ?a ?b ?c ?d ?w0] =>
               let e0 := fresh "e" in let H := fresh "H" in
               destruct (Hget w0) as [e0 H]; rewrite H
           end;
    step_monad; new_events;
    (split; [eexists _, _; split; reflexivity|]);
    (split; [reflexivity|]);
    (split; [eexists _, _; split; reflexivity|reflexivity]).
Qed.

Lemma unaddressable_comment_sends_nothing_witness :
  events_of
    (setDatabaseComment (JStr "postgresql://localhost:5432/db") "column" "email"
       "the address" no_comment_options)
    accepting_world
  = [EvConnect (JStr "postgresql://localhost:5432/db"); EvDisconnect].
Proof.
  apply (@unaddressable_comment_sends_nothing
           (JStr "postgresql://localhost:5432/db") "column" "email" "the address"
           no_comment_options accepting_world).
  reflexivity.
Defined.

(** X3.  Reading the comment of an addressable object from a server that
    answers: no row gives a success whose comment is [null]; otherwise
    the comment is the [comment] field of the first row, and the other
    rows are ignored; a first row that is [null] makes the call a
    failure. *)
Theorem getDatabaseComment_first_row cs objectType objectName options w
    connected rows rest :
  comment_addressable objectType options = true ->
  db_script w = ReplyRows connected :: ReplyRows rows :: rest ->
  exists r w',
    getDatabaseComment cs objectType objectName options w = (Returned r, w')
    /\ match rows with
       | [] => success r = true /\ get_prop (details r) "comment" = JNull
       | JUndefined :: _ | JNull :: _ => success r = false
       | row :: _ =>
           success r = true
           /\ get_prop (details r) "comment" = get_prop row "comment"
       end.
Proof.
  intros Hok Hs. unfold getDatabaseComment. step_monad. rewrite Hs. step_monad.
  match goal with
  | |- context [comment_query_sql ?a ?b ?c ?d ?w0] =>
      destruct (comment_query_sql_addressable a b c d w0) as [[sql|e] [Hrun Hr]];
      [rewrite Hrun | congruence]
  end.
  step_monad.
  destruct rows as [|[| | | | | |] rows]; unfold read_prop; step_monad;
    eexists _, _; (split; [reflexivity|]); cbn; auto.
Qed.

Lemma getDatabaseComment_first_row_witness :
  exists r w',
    getDatabaseComment (JStr "postgresql://localhost:5432/db") "table" "users"
      no_comment_options
      (mkWorld false []
         [ReplyRows [];
          ReplyRows [JObj [("comment", JStr "people")];
                     JObj [("comment", JStr "ignored")]]])
    = (Returned r, w')
    /\ success r = true
    /\ get_prop (details r) "comment" = JStr "people".
Proof.
  destruct (@getDatabaseComment_first_row
              (JStr "postgresql://localhost:5432/db") "table" "users"
              no_comment_options
              (mkWorld false []
                 [ReplyRows [];
                  ReplyRows [JObj [("comment", JStr "people")];
                             JObj [("comment", JStr "ignored")]]])
              [] [JObj [("comment", JStr "people")];
                  JObj [("comment", JStr "ignored")]] [] eq_refl eq_refl)
    as [r [w' [Hrun Hrow]]].
  exists r, w'. split; [exact Hrun|exact Hrow].
Defined.

(* ================================================================== *)
(** * Further properties: failures as values                            *)
(* ================================================================== *)


Ltac never_throws_tac :=
  intros w; step_monad;
  repeat match goal with
         | |- context [match ?x with _ => _ end] =>
             lazymatch x with
             | context [match _ with _ => _ end] => fail
             | _ => destruct x
             end
         | |- context [if ?x then _ else _] =>
             lazymatch x with
             | context [match _ with _ => _ end] => fail
             | context [if _ then _ else _] => fail
             | _ => destruct x
             end
         end;
  step_monad; eexists _, _; reflexivity.


(* ================================================================== *)
(** * Further properties: the analysis tool                             *)
(* ================================================================== *)

(** X5.  Unlike the other operations, [analyzeDatabase] lets failures
    escape as exceptions.  A failed connect is thrown on as it is, with
    no disconnect after it; a failed first statement is thrown on after
    the disconnect; and a server that has no row for [SELECT version()]
    makes it throw a [TypeError], again after the disconnect. *)
Theorem analyzeDatabase_rethrows num cs analysisType w :
  (forall e rest,
     db_script w = ReplyFail e :: rest ->
     analyzeDatabase num cs analysisType w
     = (Threw e, mkWorld false (db_trace w ++ [EvConnect cs]) rest))
  /\ (forall connected e rest,
        db_script w = ReplyRows connected :: ReplyFail e :: rest ->
        analyzeDatabase num cs analysisType w
        = (Threw e,
           mkWorld false
             (db_trace w ++ [EvConnect cs; EvQuery "SELECT version()" [];
                             EvDisconnect])
             rest))
  /\ (forall connected rest,
        db_script w = ReplyRows connected :: ReplyRows [] :: rest ->
        analyzeDatabase num cs analysisType w
        = (Threw (JsError "Cannot read properties of undefined (reading 'version')"),
           mkWorld false
             (db_trace w ++ [EvConnect cs; EvQuery "SELECT version()" [];
                             EvDisconnect])
             rest)).
Proof.
  repeat match goal with |- _ /\ _ => split end; intros;
    unfold analyzeDatabase, getVersion, first_row_prop, read_prop; step_monad;
    rewrite H; step_monad; repeat rewrite <- app_assoc; reflexivity.
Qed.

Lemma analyzeDatabase_rethrows_witness :
  analyzeDatabase example_numbers (JStr "postgresql://localhost:5432/db")
    "performance" refusing_world
  = (Threw (JsError "connect ECONNREFUSED 127.0.0.1:5432"),
     mkWorld false [EvConnect (JStr "postgresql://localhost:5432/db")] []).
Proof.
  apply (proj1 (analyzeDatabase_rethrows example_numbers
                  (JStr "postgresql://localhost:5432/db") "performance"
                  refusing_world)).
  reflexivity.
Defined.

Lemma valid_analysisType_None v :
  (forall s, In s analysis_types -> v <> JStr s) -> valid_analysisType v = None.
Proof.
  intros H. unfold valid_analysisType. destruct v; try reflexivity.
  destruct (existsb (String.eqb s) analysis_types) eqn:E; [|reflexivity].
  apply existsb_exists in E as [x [Hx Hs]]. apply String.eqb_eq in Hs. subst x.
  now elim (H s Hx).
Qed.

(** X6.  The analysis tool declares [analysisType] optional and yet
    requires it: a call whose [analysisType] is absent or is not one of
    the three types is answered with the argument error before the
    connection string is resolved, so also on a server that has none,
    and nothing is sent to the database. *)
Theorem analyzeDatabaseTool_requires_analysisType num p srv request fields w :
  record_get (enabledToolsMap srv) (params_name request)
  = PTool (analyzeDatabaseTool num) ->
  params_arguments request = JObj fields ->
  (forall s, In s analysis_types -> get_prop (JObj fields) "analysisType" <> JStr s) ->
  In (mkField "analysisType" (ZEnum analysis_types) true)
    (inputSchema (analyzeDatabaseTool num))
  /\ callTool p srv request w
     = (Returned
          (error_output
             "Error: analysisType is required and must be one of ['configuration', 'performance', 'security']."),
        w).
Proof.
  intros Hget Hargs Hbad. split; [cbn; tauto|].
  unfold callTool. rewrite Hget, Hargs. cbv zeta.
  cbn [execute analyzeDatabaseTool]. unfold try_catch, bind, destructure, ret.
  cbv beta iota. now rewrite (valid_analysisType_None Hbad).
Qed.

Lemma analyzeDatabaseTool_requires_analysisType_witness :
  callTool no_defaults (new_PostgreSQLServer no_defaults [analyzeDatabaseTool example_numbers])
    (mkRequest "pg_analyze_database" (JObj [])) quiet_world
  = (Returned
       (error_output
          "Error: analysisType is required and must be one of ['configuration', 'performance', 'security']."),
     quiet_world).
Proof.
  apply (@analyzeDatabaseTool_requires_analysisType example_numbers no_defaults
           (new_PostgreSQLServer no_defaults [analyzeDatabaseTool example_numbers])
           (mkRequest "pg_analyze_database" (JObj [])) [] quiet_world).
  - reflexivity.
  - reflexivity.
  - intros s _. discriminate.
Defined.

(* ================================================================== *)
(** * Further properties: consolidated and narrow tools                 *)
(* ================================================================== *)

Lemma function_operations_never_throw :
  (forall cs a b, never_throws (_getFunctions cs a b))
  /\ (forall cs a b o, never_throws (_dropFunction cs a b o))
  /\ (forall cs a b, never_throws (_enableRLS cs a b))
  /\ (forall cs a b, never_throws (_disableRLS cs a b))
  /\ (forall cs a b c d o, never_throws (_createRLSPolicy cs a b c d o))
  /\ (forall cs a b o, never_throws (_dropRLSPolicy cs a b o))
  /\ (forall cs a b o, never_throws (_editRLSPolicy cs a b o))
  /\ (forall cs a b, never_throws (_getRLSPolicies cs a b))
  /\ (forall cs a b c d o, never_throws (_createFunction cs a b c d o)).
Proof.
  repeat match goal with |- _ /\ _ => split end; intros;
    unfold _getFunctions, _dropFunction, _enableRLS, _disableRLS,
      _createRLSPolicy, _dropRLSPolicy, _editRLSPolicy, _getRLSPolicies,
      _createFunction, rolesString;
    never_throws_tac.
Qed.

(** Around an operation that never throws, the [try] of a consolidated
    tool changes nothing. *)
Lemma try_catch_never_throws {A B} (m : M A) (k : A -> B) h :
  never_throws m ->
  forall w, try_catch (bind m (fun r => ret (k r))) h w
            = bind m (fun r => ret (k r)) w.
Proof.
  intros Hm w. unfold try_catch, bind, ret.
  destruct (Hm w) as [r [w' ->]]. reflexivity.
Qed.

Ltac consolidated_case Hop Hreq fields :=
  cbn [execute manageFunctionsTool manageRLSTool getFunctionsTool
         dropFunctionTool enableRLSTool disableRLSTool createRLSPolicyTool
         dropRLSPolicyTool editRLSPolicyTool getRLSPoliciesTool
         createFunctionTool];
  unfold manageFunctionsTool_execute, manageRLSTool_execute;
  unfold bind at 1; unfold destructure at 1, ret at 1; cbv beta iota zeta;
  rewrite Hop;
  cbn [is_str String.eqb Ascii.eqb Bool.eqb];
  repeat match goal with
         | |- context [truthy (get_prop (JObj fields) ?k)] =>
             rewrite (Hreq k) by (cbn; tauto)
         end;
  cbn [negb orb];
  symmetry;
  unfold bind at 1; unfold destructure at 1, ret at 1; cbv beta iota zeta;
  unfold bind at 1;
  symmetry;
  unfold bind at 1;
  match goal with
  | |- context [?g ?arg ?w] =>
      lazymatch type of (g arg w) with
      | (outcome jsval * world)%type => destruct (g arg w) as [[?cs|?e] ?w1]
      end
  end;
  [|reflexivity].

(** X7.  Consolidation kept the behaviour of the narrow tools: for
    every operation but [create], a call of the consolidated tool with
    that operation and the fields its branch checks is answered exactly
    as the same arguments are by the narrow tool it replaced, with the
    same envelope, the same round trips and the same exception when the
    connection string does not resolve. *)
Theorem consolidated_agrees_with_narrow wide op required narrow fields
    (g : GetConnectionStringFn) w :
  In (wide, op, required, narrow) consolidation ->
  get_prop (JObj fields) "operation" = JStr op ->
  (forall f, In f required -> truthy (get_prop (JObj fields) f) = true) ->
  execute wide (JObj fields) g w = execute narrow (JObj fields) g w.
Proof.
  intros Hin Hop Hreq.
  destruct function_operations_never_throw
    as [Hget [Hdrop [Hen [Hdis [Hcp [Hdp [Hep [Hgp _]]]]]]]].
  cbn [consolidation In] in Hin.
  repeat destruct Hin as [Hin|Hin]; try contradiction;
    injection Hin as <- <- <- <-; consolidated_case Hop Hreq fields.
  - match goal with
    | |- try_catch ?b ?h ?w0 = _ =>
        transitivity (bind (_getFunctions cs (get_prop (JObj fields) "functionName")
                              (get_prop (JObj fields) "schema"))
                        (fun r => ret (report_rows r)) w0)
    end; [|reflexivity].
    unfold try_catch, bind, ret.
    destruct (Hget cs (get_prop (JObj fields) "functionName")
                (get_prop (JObj fields) "schema") w1) as [r [w' ->]].
    unfold report, report_rows. destruct (success r); reflexivity.
  - apply try_catch_never_throws with (k := report), Hdrop.
  - apply try_catch_never_throws with (k := report), Hen.
  - apply try_catch_never_throws with (k := report), Hdis.
  - apply try_catch_never_throws with (k := report), Hcp.
  - apply try_catch_never_throws with (k := report), Hep.
  - apply try_catch_never_throws with (k := report), Hdp.
  - match goal with
    | |- try_catch ?b ?h ?w0 = _ =>
        transitivity (bind (_getRLSPolicies cs (get_prop (JObj fields) "tableName")
                              (get_prop (JObj fields) "schema"))
                        (fun r => ret (report_rows r)) w0)
    end; [|reflexivity].
    unfold try_catch, bind, ret.
    destruct (Hgp cs (get_prop (JObj fields) "tableName")
                (get_prop (JObj fields) "schema") w1) as [r [w' ->]].
    unfold report, report_rows. destruct (success r); reflexivity.
Qed.

Lemma consolidated_agrees_with_narrow_witness :
  execute manageRLSTool
    (JObj [("operation", JStr "enable"); ("tableName", JStr "users")])
    (getConnectionString cli_default) failing_statement_world
  = execute enableRLSTool
      (JObj [("operation", JStr "enable"); ("tableName", JStr "users")])
      (getConnectionString cli_default) failing_statement_world.
Proof.
  apply (@consolidated_agrees_with_narrow manageRLSTool "enable" ["tableName"]
           enableRLSTool
           [("operation", JStr "enable"); ("tableName", JStr "users")]
           (getConnectionString cli_default) failing_statement_world).
  - cbn. tauto.
  - reflexivity.
  - intros f [<-|[]]. reflexivity.
Defined.

(** White space beyond one byte is blank as well: a no-break space, an
    ideographic space, a byte-order mark and a line separator around a
    tab normalise to the empty parameter list, and a letter among them
    does not. *)
Example normalizedParameters_unicode_blank :
  normalizedParameters
    (JStr (String "194" (String "160"
             (String "227" (String "128" (String "128"
                (String "009"
                   (String "239" (String "187" (String "191"
                      (String "226" (String "128" (String "168" EmptyString)))))))))))))
  = JStr EmptyString
  /\ normalizedParameters (JStr (String "194" (String "160" "a")))
     = JStr (String "194" (String "160" "a")).
Proof. split; reflexivity. Qed.



(* ================================================================== *)
(** * Further properties: what the operations send                      *)
(* ================================================================== *)

(** X9.  Editing a policy with neither roles nor a USING nor a WITH CHECK
    expression sends no statement: the operation connects, disconnects
    and returns a result that is not a success, with the message that no
    changes were specified when the connection was accepted. *)
Theorem editRLSPolicy_without_changes cs tableName policyName schema w :
  let m := _editRLSPolicy cs tableName policyName
             {| ep_schema := schema; ep_roles := JUndefined;
                ep_using := JUndefined; ep_check := JUndefined |} in
  events_of m w = [EvConnect cs; EvDisconnect]
  /\ exists r w',
       m w = (Returned r, w')
       /\ success r = false
       /\ (accepts 1 (db_script w) = true ->
           message r = "No changes specified for the policy.").
Proof.
  cbv zeta. unfold _editRLSPolicy, events_of. step_monad.
  cbn [ep_roles ep_using ep_check ep_schema is_undefined negb app length Nat.eqb].
  step_monad.
  destruct (db_script w) as [|[rows|e] rest]; step_monad; new_events;
    (split; [reflexivity|]); eexists _, _; (split; [reflexivity|]);
    cbn [success message accepts]; split; auto; discriminate.
Qed.

Lemma json_array_text gap xs fallback :
  string_is_empty gap = false ->
  exists rest,
    match json_property gap EmptyString (JArr xs) with
    | Some s => if string_is_empty s then fallback else s
    | None => fallback
    end = String "["%char rest.
Proof.
  intros Hgap. cbn [json_property]. unfold json_wrap.
  destruct (map _ xs); [now eexists|].
  rewrite Hgap. cbn [append string_is_empty]. now eexists.
Qed.

(** X10.  A successful read never shows its message: the envelope of
    [pg_get_functions] and [pg_get_rls_policies] for a successful result
    is the JSON array of the rows, so the fallback to the message (the
    count of functions found, for one) is never taken. *)
Theorem successful_read_shows_rows :
  (forall cs functionName schema w r w',
     _getFunctions cs functionName schema w = (Returned r, w') ->
     success r = true ->
     exists rest, output_text (report_rows r) = String "["%char rest)
  /\ (forall cs tableName schema w r w',
        _getRLSPolicies cs tableName schema w = (Returned r, w') ->
        success r = true ->
        exists rest, output_text (report_rows r) = String "["%char rest).
Proof.
  split; intros ? ? ? w r w' Hrun Hok;
    unfold _getFunctions, _getRLSPolicies in Hrun; step_monad;
    destruct (db_script w) as [|[?|?] [|[?|?] ?]]; step_monad;
    injection Hrun as <- <-; try discriminate Hok;
    unfold report_rows, JSON_stringify_2_or;
    cbn [success details message output_text ok_output content text];
    now apply json_array_text.
Qed.

Lemma successful_read_shows_rows_witness :
  exists rest,
    output_text
      (report_rows
         (mkResult true "Found 0 functions in schema public" (JArr [])))
    = String "["%char rest.
Proof.
  apply (proj1 successful_read_shows_rows
           (JStr "postgresql://localhost:5432/db") JUndefined JUndefined
           accepting_world
           (mkResult true "Found 0 functions in schema public" (JArr []))
           (mkWorld false
              [EvConnect (JStr "postgresql://localhost:5432/db");
               EvQuery (sql_getFunctions ++ " ORDER BY p.proname") [JStr "public"];
               EvDisconnect] [])).
  - reflexivity.
  - reflexivity.
Defined.

(** X11.  The two read operations of [functions.ts] bind what the caller
    supplies: each sends one of two fixed statements, and the schema and
    the optional name filter travel as the parameters [$1] and [$2]; the
    second placeholder is in the text exactly when the second parameter
    is sent. *)
Theorem read_operations_bind_values :
  (forall cs functionName schema w sql params,
     In (EvQuery sql params) (events_of (_getFunctions cs functionName schema) w) ->
     (sql = sql_getFunctions ++ " ORDER BY p.proname"
      /\ params = [default_arg schema (JStr "public")]
      /\ truthy functionName = false)
     \/ (sql = (sql_getFunctions ++ " AND p.proname = $2") ++ " ORDER BY p.proname"
         /\ params = [default_arg schema (JStr "public"); functionName]
         /\ truthy functionName = true))
  /\ (forall cs tableName schema w sql params,
        In (EvQuery sql params) (events_of (_getRLSPolicies cs tableName schema) w) ->
        (sql = sql_getRLSPolicies ++ " ORDER BY tablename, policyname"
         /\ params = [default_arg schema (JStr "public")]
         /\ truthy tableName = false)
        \/ (sql = (sql_getRLSPolicies ++ " AND tablename = $2")
                  ++ " ORDER BY tablename, policyname"
            /\ params = [default_arg schema (JStr "public"); tableName]
            /\ truthy tableName = true)).
Proof.
  split; intros cs filter schema w sql params;
    unfold _getFunctions, _getRLSPolicies, events_of; step_monad;
    destruct (truthy filter) eqn:Hf;
    destruct (db_script w) as [|[rows|e] [|[rows'|e'] rest]];
    step_monad; new_events;
    intros H; repeat destruct H as [H|H]; try discriminate H; try contradiction;
    injection H as <- <-; auto.
Qed.

(* ================================================================== *)
(** * Further properties: the server                                    *)
(* ================================================================== *)

(** X12.  A call that carries no arguments at all is answered by every
    tool of the sources with an error envelope, the [TypeError] of
    reading the fields off [undefined], before anything is resolved or
    sent. *)
Theorem missing_arguments_rejected num p srv request tool w :
  In tool (source_tools num) ->
  record_get (enabledToolsMap srv) (params_name request) = PTool tool ->
  params_arguments request = JUndefined ->
  callTool p srv request w
  = (Returned
       (error_output
          "Error: Cannot destructure property 'connectionString' of 'args' as it is undefined."),
     w).
Proof.
  intros Hin Hget Hargs. unfold callTool. rewrite Hget, Hargs. cbv zeta.
  cbn [source_tools In] in Hin.
  repeat destruct Hin as [<-|Hin]; try contradiction; reflexivity.
Qed.

Lemma missing_arguments_rejected_witness :
  callTool cli_default (wide_server cli_default)
    (mkRequest "pg_manage_functions" JUndefined) accepting_world
  = (Returned
       (error_output
          "Error: Cannot destructure property 'connectionString' of 'args' as it is undefined."),
     accepting_world).
Proof.
  apply (@missing_arguments_rejected example_numbers cli_default
           (wide_server cli_default)
           (mkRequest "pg_manage_functions" JUndefined) manageFunctionsTool
           accepting_world).
  - cbn. tauto.
  - reflexivity.
  - reflexivity.
Defined.

Lemma all_strings_non_string xs :
  existsb (fun x => negb (is_JStr x)) xs = true -> all_strings xs = None.
Proof.
  induction xs as [|x xs IH]; [discriminate|].
  cbn [existsb]. intros H. apply orb_true_iff in H as [H|H].
  - destruct x; try reflexivity. discriminate H.
  - destruct x; try reflexivity. cbn [all_strings]. now rewrite (IH H).
Qed.

(** X13.  One entry of [enabledTools] that is not a string undoes the
    whole allow-list: the file is reported as having an invalid format,
    and every registered tool is enabled, also the ones the list left
    out. *)
Theorem allow_list_with_non_string_enables_all p available path config xs :
  non_empty (options_toolsConfig p) = Some path ->
  read_and_parse p path = Returned config ->
  get_prop config "enabledTools" = JArr xs ->
  existsb (fun x => negb (is_JStr x)) xs = true ->
  enabledTools (new_PostgreSQLServer p available) = available
  /\ snd (toolsToEnable_and_log p available)
     = [console_error
          ("[MCP Warning] Invalid tools configuration file format at "
           ++ path ++ ".")].
Proof.
  intros Hpath Hfile Hprop Hbad.
  assert (Hcfg : config_enabledTools config = None).
  { unfold config_enabledTools. rewrite Hprop, (all_strings_non_string _ Hbad).
    now destruct (truthy config). }
  unfold new_PostgreSQLServer, loadAndFilterTools, toolsToEnable_and_log.
  cbn [availableToolsList]. rewrite Hpath, Hfile, Hcfg. split; reflexivity.
Qed.

Lemma allow_list_with_non_string_enables_all_witness :
  map name
    (enabledTools
       (new_PostgreSQLServer
          (example_process None None (Some "tools.json")
             (JObj [("enabledTools", JArr [JStr "pg_manage_rls"; JNum (mkNumber NumFinite "7")])]))
          [manageFunctionsTool; manageRLSTool]))
  = ["pg_manage_functions"; "pg_manage_rls"].
Proof.
  rewrite (proj1 (@allow_list_with_non_string_enables_all
                    (example_process None None (Some "tools.json")
                       (JObj [("enabledTools",
                               JArr [JStr "pg_manage_rls"; JNum (mkNumber NumFinite "7")])]))
                    [manageFunctionsTool; manageRLSTool] "tools.json"
                    (JObj [("enabledTools", JArr [JStr "pg_manage_rls"; JNum (mkNumber NumFinite "7")])])
                    [JStr "pg_manage_rls"; JNum (mkNumber NumFinite "7")]
                    eq_refl eq_refl eq_refl eq_refl)).
  reflexivity.
Defined.

Section PlainObjects.

Lemma assoc_app k (xs ys : list (string * jsval)) :
  assoc k (xs ++ ys)
  = match assoc k xs with Some v => Some v | None => assoc k ys end.
Proof.
  induction xs as [|[k' v'] xs IH]; cbn; [reflexivity|].
  now destruct (String.eqb k k').
Qed.

Lemma assoc_overwrite_same fields k v :
  assoc k fields <> None -> assoc k (overwrite fields k v) = Some v.
Proof.
  induction fields as [|[k' v'] fields IH]; cbn; [congruence|].
  destruct (String.eqb k k') eqn:E; cbn.
  - now rewrite String.eqb_refl.
  - now rewrite E.
Qed.

Lemma assoc_overwrite_other fields k k' v :
  k' <> k -> assoc k' (overwrite fields k v) = assoc k' fields.
Proof.
  intros Hne. induction fields as [|[k0 v0] fields IH]; cbn; [reflexivity|].
  destruct (String.eqb k k0) eqn:E; cbn.
  - apply String.eqb_eq in E. subst k0.
    destruct (String.eqb k' k) eqn:E'; [|reflexivity].
    apply String.eqb_eq in E'. contradiction.
  - now rewrite IH.
Qed.

Lemma assoc_cons_same k v (fields : list (string * jsval)) :
  assoc k ((k, v) :: fields) = Some v.
Proof. cbn. now rewrite String.eqb_refl. Qed.

Lemma assoc_cons_other k k' v (fields : list (string * jsval)) :
  k' <> k -> assoc k' ((k, v) :: fields) = assoc k' fields.
Proof.
  intros Hne. cbn. destruct (String.eqb k' k) eqn:E; [|reflexivity].
  apply String.eqb_eq in E. contradiction.
Qed.

Lemma assoc_insert_index_same n fields k v :
  assoc k fields = None -> assoc k (insert_index n k v fields) = Some v.
Proof.
  induction fields as [|[k' v'] fields IH]; intros Hnone.
  - apply assoc_cons_same.
  - cbn [insert_index]. cbn [assoc] in Hnone.
    destruct (String.eqb k k') eqn:E; [discriminate|].
    destruct (array_index k') as [n'|]; [|apply assoc_cons_same].
    destruct (n' <? n)%N; [|apply assoc_cons_same].
    cbn [assoc]. rewrite E. now apply IH.
Qed.

Lemma assoc_insert_index_other n fields k k' v :
  k' <> k -> assoc k' (insert_index n k v fields) = assoc k' fields.
Proof.
  intros Hne. induction fields as [|[k0 v0] fields IH].
  - now apply assoc_cons_other.
  - cbn [insert_index].
    destruct (array_index k0) as [n'|]; [|now apply assoc_cons_other].
    destruct (n' <? n)%N; [|now apply assoc_cons_other].
    cbn [assoc]. now rewrite IH.
Qed.

Lemma assoc_define_own_same fields k v :
  assoc k (define_own fields k v) = Some v.
Proof.
  unfold define_own. destruct (assoc k fields) eqn:E.
  - apply assoc_overwrite_same. congruence.
  - destruct (array_index k).
    + now apply assoc_insert_index_same.
    + rewrite assoc_app, E. apply assoc_cons_same.
Qed.

Lemma assoc_define_own_other fields k k' v :
  k' <> k -> assoc k' (define_own fields k v) = assoc k' fields.
Proof.
  intros Hne. unfold define_own. destruct (assoc k fields).
  - now apply assoc_overwrite_other.
  - destruct (array_index k).
    + now apply assoc_insert_index_other.
    + rewrite assoc_app. destruct (assoc k' fields); [reflexivity|].
      now apply assoc_cons_other.
Qed.

(** What an assignment leaves under a name other than [__proto__]. *)
Lemma assoc_set_prop o k v n :
  n <> "__proto__" ->
  assoc n (po_own (set_prop o k v))
  = if String.eqb k n then Some v else assoc n (po_own o).
Proof.
  intros Hn. unfold set_prop.
  destruct (String.eqb k "__proto__" && reaches_proto_setter o) eqn:Eset.
  - apply andb_true_iff in Eset. destruct Eset as [Ek _].
    apply String.eqb_eq in Ek. subst k.
    destruct (String.eqb "__proto__" n) eqn:E.
    + apply String.eqb_eq in E. congruence.
    + now destruct v.
  - cbn [po_own]. destruct (String.eqb k n) eqn:E.
    + apply String.eqb_eq in E. subst n. apply assoc_define_own_same.
    + apply assoc_define_own_other. intros ->. now rewrite String.eqb_refl in E.
Qed.

Lemma set_prop_untouched o k v :
  untouched o -> is_primitive v = true -> untouched (set_prop o k v).
Proof.
  intros [Hproto Hown] Hv. unfold set_prop, reaches_proto_setter.
  rewrite Hown, Hproto. destruct (String.eqb k "__proto__") eqn:E; cbn [andb].
  - destruct v; try discriminate; now split.
  - split; [reflexivity|]. cbn [po_own].
    rewrite assoc_define_own_other; [exact Hown|].
    intros Heq. subst k. now rewrite String.eqb_refl in E.
Qed.

Variable key : jsval -> string.
Variable value : jsval -> jsval.
Variable entry : jsval -> M (string * jsval).
Hypothesis entry_returns :
  forall row w kv w1, entry row w = (Returned kv, w1) -> kv = (key row, value row).

Lemma find_last (P : jsval -> bool) row rows :
  find P (rev (row :: rows))
  = match find P (rev rows) with
    | Some r => Some r
    | None => if P row then Some row else None
    end.
Proof.
  cbn [rev]. induction (rev rows) as [|r rs IH]; cbn; [reflexivity|].
  now destruct (P r).
Qed.

Lemma reduce_rows_last_row rows acc w acc' w' n :
  reduce_rows entry rows acc w = (Returned acc', w') ->
  n <> "__proto__" ->
  assoc n (po_own acc')
  = match find (fun row => String.eqb (key row) n) (rev rows) with
    | Some row => Some (value row)
    | None => assoc n (po_own acc)
    end.
Proof.
  intros Hrun Hn. revert acc w Hrun.
  induction rows as [|row rows IH]; intros acc w Hrun.
  - cbn in Hrun. injection Hrun as <- _. reflexivity.
  - cbn [reduce_rows] in Hrun. unfold bind in Hrun.
    destruct (entry row w) as [[kv|e] w1] eqn:Hentry; [|discriminate].
    apply entry_returns in Hentry. subst kv. cbn [fst snd] in Hrun.
    apply IH in Hrun. rewrite Hrun, find_last.
    destruct (find _ (rev rows)); [reflexivity|].
    rewrite (assoc_set_prop _ _ _ Hn). now destruct (String.eqb (key row) n).
Qed.

Lemma reduce_rows_untouched rows acc w acc' w' :
  reduce_rows entry rows acc w = (Returned acc', w') ->
  (forall row, In row rows -> is_primitive (value row) = true) ->
  untouched acc -> untouched acc'.
Proof.
  revert acc w. induction rows as [|row rows IH]; intros acc w Hrun Hrows Hacc.
  - cbn in Hrun. injection Hrun as <- _. exact Hacc.
  - cbn [reduce_rows] in Hrun. unfold bind in Hrun.
    destruct (entry row w) as [[kv|e] w1] eqn:Hentry; [|discriminate].
    apply entry_returns in Hentry. subst kv. cbn [fst snd] in Hrun.
    apply IH in Hrun; [exact Hrun| |].
    + intros r Hr. apply Hrows. now right.
    + apply set_prop_untouched; [exact Hacc|]. apply Hrows. now left.
Qed.

End PlainObjects.

(** X14.  When the server answers the settings query with [rows] and
    [getSettings] returns, every setting under a name other than
    [__proto__] is the one of the last row of that name, with the unit
    put behind the value, and a name no row has is not among the
    settings.  When moreover every row gives a string, a number or no
    value, the object keeps its prototype and has no property
    [__proto__], also when a row is called that. *)
Theorem getSettings_last_row_decides w rows rest settings w' :
  next_reply w = (ReplyRows rows, rest) ->
  getSettings w = (Returned settings, w') ->
  (forall n, n <> "__proto__" ->
     assoc n (po_own settings)
     = option_map setting_with_unit (deciding_row n rows))
  /\ ((forall row, In row rows -> is_primitive (setting_with_unit row) = true) ->
      po_proto settings = None /\ assoc "__proto__" (po_own settings) = None).
Proof.
  intros Hreply Hrun. unfold getSettings in Hrun. unfold bind at 1 in Hrun.
  unfold db_query in Hrun. rewrite Hreply in Hrun.
  assert (Hentry : forall row w0 kv w1,
            (name_ <- read_prop row "name" ;;
             ret (js_String name_, setting_with_unit row)) w0 = (Returned kv, w1) ->
            kv = (js_String (get_prop row "name"), setting_with_unit row)).
  { intros row w0 kv w1 H. unfold bind, read_prop in H.
    destruct row; cbn in H; try discriminate; now injection H as <- _. }
  split.
  - intros n Hn.
    erewrite reduce_rows_last_row; [|exact Hentry|exact Hrun|exact Hn].
    unfold deciding_row. now destruct (find _ (rev rows)).
  - intros Hrows.
    eapply reduce_rows_untouched; [exact Hentry|exact Hrun|exact Hrows|now split].
Qed.

Lemma getSettings_last_row_decides_witness :
  assoc "work_mem"
    (po_own {| po_own := [("work_mem", JStr "8MB")]; po_proto := None |})
  = Some (JStr "8MB")
  /\ fst (getSettings
            (mkWorld true []
               [ReplyRows
                  [JObj [("name", JStr "work_mem"); ("setting", JStr "4");
                         ("unit", JStr "MB")];
                   JObj [("name", JStr "__proto__"); ("setting", JStr "x")];
                   JObj [("name", JStr "work_mem"); ("setting", JStr "8");
                         ("unit", JStr "MB")]]]))
     = Returned {| po_own := [("work_mem", JStr "8MB")]; po_proto := None |}.
Proof.
  split; [|reflexivity].
  rewrite (proj1 (@getSettings_last_row_decides
             (mkWorld true []
                [ReplyRows
                   [JObj [("name", JStr "work_mem"); ("setting", JStr "4");
                          ("unit", JStr "MB")];
                    JObj [("name", JStr "__proto__"); ("setting", JStr "x")];
                    JObj [("name", JStr "work_mem"); ("setting", JStr "8");
                          ("unit", JStr "MB")]]])
             _ [] {| po_own := [("work_mem", JStr "8MB")]; po_proto := None |}
             _ eq_refl eq_refl) "work_mem"); [reflexivity|discriminate].
Defined.

Section Registration.

Lemma own_get_set_same props k t : own_get (own_set props k t) k = Some t.
Proof.
  induction props as [|[k' t'] props IH]; cbn.
  - now rewrite String.eqb_refl.
  - destruct (String.eqb k k') eqn:E; cbn.
    + now rewrite String.eqb_refl.
    + now rewrite E.
Qed.

(** What the record holds under a name after a list of tools was
    added: the last tool of that name. *)
Lemma own_get_fold_last tools r n :
  n <> "__proto__" ->
  own_get (own (fold_left add_tool tools r)) n
  = match last_named n tools with
    | Some t => Some t
    | None => own_get (own r) n
    end.
Proof.
  intros Hn. unfold last_named.
  induction tools as [|t tools IH] using rev_ind; [reflexivity|].
  rewrite fold_left_app, rev_app_distr. cbn [fold_left rev app find].
  unfold add_tool at 1, record_set.
  destruct (String.eqb (name t) n) eqn:E.
  - apply String.eqb_eq in E. subst n.
    destruct (String.eqb (name t) "__proto__") eqn:Ep.
    + apply String.eqb_eq in Ep. contradiction.
    + cbn [own]. apply own_get_set_same.
  - destruct (String.eqb (name t) "__proto__"); cbn [own]; [exact IH|].
    rewrite own_get_set_other; [exact IH|].
    intros ->. now rewrite String.eqb_refl in E.
Qed.

Lemma last_named_found tools n :
  has_tool_named tools n = true ->
  exists t, last_named n tools = Some t /\ name t = n /\ In t tools.
Proof.
  unfold has_tool_named, last_named. intros H.
  destruct (find (fun tool => String.eqb (name tool) n) (rev tools)) as [t|] eqn:F.
  - apply find_some in F as [Hin E]. exists t. split; [reflexivity|].
    split; [now apply String.eqb_eq|now apply in_rev].
  - apply existsb_exists in H as [t [Hin E]].
    apply in_rev in Hin. pose proof (find_none _ _ F t Hin) as Hf.
    cbv beta in Hf. congruence.
Qed.

Lemma has_tool_named_allow_list tools L n :
  existsb (String.eqb n) L = false ->
  has_tool_named
    (filter (fun tool => existsb (String.eqb (name tool)) L) tools) n = false.
Proof.
  intros HL. unfold has_tool_named.
  induction tools as [|t tools IH]; [reflexivity|].
  cbn [filter]. destruct (existsb (String.eqb (name t)) L) eqn:E; [|exact IH].
  cbn [existsb]. rewrite IH, orb_false_r.
  destruct (String.eqb (name t) n) eqn:En; [|reflexivity].
  apply String.eqb_eq in En. subst n. congruence.
Qed.

End Registration.

(** X15.  Every enabled name reaches a tool of that name, and when two
    registered tools share a name the calls go to the one registered
    last, while the listing shows both: the record keeps one tool per
    name and the list keeps them all. *)
Theorem enabled_name_dispatches_to_last p tools n :
  n <> "__proto__" ->
  has_tool_named (enabledTools (new_PostgreSQLServer p tools)) n = true ->
  exists tool,
    last_named n (enabledTools (new_PostgreSQLServer p tools)) = Some tool
    /\ name tool = n
    /\ record_get (enabledToolsMap (new_PostgreSQLServer p tools)) n = PTool tool
    /\ (forall args w,
          callTool p (new_PostgreSQLServer p tools) (mkRequest n args) w
          = try_catch (result <- execute tool args (getConnectionString p) ;;
                       ret result)
              (fun error => ret (error_output ("Error: " ++ error_message error)))
              w)
    /\ length (listTools (new_PostgreSQLServer p tools))
       = length (enabledTools (new_PostgreSQLServer p tools)).
Proof.
  intros Hn Hen. destruct (last_named_found _ _ Hen) as [tool [Hlast [Hname _]]].
  exists tool. split; [exact Hlast|]. split; [exact Hname|].
  assert (Hget : record_get (enabledToolsMap (new_PostgreSQLServer p tools)) n
                 = PTool tool).
  { unfold record_get.
    destruct (String.eqb n "__proto__") eqn:E;
      [apply String.eqb_eq in E; contradiction|].
    now rewrite enabledToolsMap_new, own_get_fold_last, Hlast. }
  split; [exact Hget|]. split.
  - intros args w. unfold callTool. cbn [params_name params_arguments].
    now rewrite Hget.
  - unfold listTools. apply length_map.
Qed.

Lemma enabled_name_dispatches_to_last_witness :
  callTool cli_default
    (new_PostgreSQLServer cli_default
       [enableRLSTool; named_tool "pg_enable_rls"])
    (mkRequest "pg_enable_rls" (JObj [("tableName", JStr "users")]))
    accepting_world
  = (Returned (ok_output EmptyString), accepting_world)
  /\ map d_name
       (listTools
          (new_PostgreSQLServer cli_default
             [enableRLSTool; named_tool "pg_enable_rls"]))
     = ["pg_enable_rls"; "pg_enable_rls"].
Proof.
  split; [|reflexivity].
  destruct (@enabled_name_dispatches_to_last cli_default
              [enableRLSTool; named_tool "pg_enable_rls"] "pg_enable_rls"
              ltac:(discriminate) eq_refl)
    as [tool [Hlast [_ [_ [Hcall _]]]]].
  rewrite Hcall. injection Hlast as <-. reflexivity.
Defined.

(** X16.  A registered tool that the allow-list leaves out is never run:
    whatever its [execute] would do, a call for it comes back as the
    error that the tool is available but not enabled, with nothing
    changed. *)
Theorem disabled_tool_is_not_run p tools L n args w :
  allow_list p = Some L ->
  existsb (String.eqb n) L = false ->
  has_tool_named tools n = true ->
  has_tool_named tools "__proto__" = false ->
  existsb (String.eqb n) Object_prototype_keys = false ->
  callTool p (new_PostgreSQLServer p tools) (mkRequest n args) w
  = (Returned
       (error_output ("Error: MCP error -32601: " ++ not_enabled_message n)),
     w).
Proof.
  intros HL Hout Hreg Hproto Hkeys.
  assert (Hen : has_tool_named (enabledTools (new_PostgreSQLServer p tools)) n
                = false).
  { rewrite enabledTools_new, HL. now apply has_tool_named_allow_list. }
  destruct (@callTool_not_enabled p tools n args w Hproto Hkeys Hen) as [-> _].
  now rewrite Hreg.
Qed.

Lemma disabled_tool_is_not_run_witness :
  callTool
    (example_process (Some "postgresql://localhost:5432/db") None
       (Some "tools.json") only_manage_functions)
    (new_PostgreSQLServer
       (example_process (Some "postgresql://localhost:5432/db") None
          (Some "tools.json") only_manage_functions)
       [manageFunctionsTool; manageRLSTool])
    (mkRequest "pg_manage_rls"
       (JObj [("operation", JStr "enable"); ("tableName", JStr "users")]))
    accepting_world
  = (Returned
       (error_output
          ("Error: MCP error -32601: " ++ not_enabled_message "pg_manage_rls")),
     accepting_world).
Proof.
  apply (@disabled_tool_is_not_run
           (example_process (Some "postgresql://localhost:5432/db") None
              (Some "tools.json") only_manage_functions)
           [manageFunctionsTool; manageRLSTool] ["pg_manage_functions"]
           "pg_manage_rls"
           (JObj [("operation", JStr "enable"); ("tableName", JStr "users")])
           accepting_world); reflexivity.
Defined.

(* ================================================================== *)
(** * Further properties: round trips and the handle                    *)
(* ================================================================== *)



Section Handle.

Lemma keeps_released_pure {A} (m : M A) : pure m -> keeps_released m.
Proof. intros H w Hw. now rewrite H. Qed.

Lemma keeps_released_releases {A} (m : M A) : releases m -> keeps_released m.
Proof. intros H w _. apply H. Qed.

Lemma keeps_released_bind {A B} (m : M A) (k : A -> M B) :
  keeps_released m -> (forall a, keeps_released (k a)) ->
  keeps_released (bind m k).
Proof.
  intros Hm Hk w Hw. unfold bind. specialize (Hm w Hw).
  destruct (m w) as [[a|e] w1]; cbn [snd] in *; [now apply Hk|exact Hm].
Qed.

Lemma keeps_released_try_catch {A} (m : M A) h :
  keeps_released m -> (forall e, keeps_released (h e)) ->
  keeps_released (try_catch m h).
Proof.
  intros Hm Hh w Hw. unfold try_catch. specialize (Hm w Hw).
  destruct (m w) as [[a|e] w1]; cbn [snd] in *; [exact Hm|now apply Hh].
Qed.

Lemma pure_throw {A} e : pure (@throw A e).
Proof. intros w. reflexivity. Qed.

Lemma pure_destructure args : pure (destructure args).
Proof. destruct args; intros w; reflexivity. Qed.

Lemma pure_getConnectionString p arg : pure (getConnectionString p arg).
Proof.
  intros w. rewrite getConnectionString_resolved.
  now destruct (resolved p arg).
Qed.

End Handle.

Create HintDb handle.
#[local] Hint Resolve pure_ret pure_throw pure_destructure
  pure_getConnectionString : handle.

Ltac handle_tac :=
  cbv zeta;
  repeat (intros;
          lazymatch goal with
          | |- keeps_released (bind _ _) => apply keeps_released_bind
          | |- keeps_released (try_catch _ _) => apply keeps_released_try_catch
          | |- keeps_released (if ?b then _ else _) => destruct b
          | |- keeps_released (match ?x with _ => _ end) => destruct x
          | |- keeps_released (analyzeDatabase _ _ _) =>
              apply keeps_released_releases; unfold analyzeDatabase;
              auto with release
          | |- keeps_released ?m =>
              first [ apply keeps_released_pure; solve [auto with handle]
                    | apply keeps_released_releases;
                      unfold _getFunctions, _createFunction, _dropFunction,
                        _enableRLS, _disableRLS, _createRLSPolicy,
                        _dropRLSPolicy, _editRLSPolicy, _getRLSPolicies;
                      solve [auto with release] ]
          end).

(** X18.  No call of a tool of the sources leaves the connection handle
    held: started with no handle, the handler returns with none, for any
    arguments, with or without a connection string, whatever the server
    answers and whether the call ends in a result, an error envelope of
    the tool or a caught exception. *)
Theorem tool_calls_leave_no_handle num p srv request :
  (forall tool,
     record_get (enabledToolsMap srv) (params_name request) = PTool tool ->
     In tool (source_tools num)) ->
  keeps_released (callTool p srv request).
Proof.
  intros Hsrc. unfold callTool. cbv zeta.
  apply keeps_released_try_catch;
    [|intros; apply keeps_released_pure, pure_ret].
  destruct (record_get (enabledToolsMap srv) (params_name request))
    as [tool|[|]|] eqn:Hget;
    try (apply keeps_released_pure, pure_throw).
  apply keeps_released_bind; [|intros; apply keeps_released_pure, pure_ret].
  specialize (Hsrc tool eq_refl). cbn [source_tools In] in Hsrc.
  repeat destruct Hsrc as [<-|Hsrc]; try contradiction;
    cbn [execute analyzeDatabaseTool getFunctionsTool createFunctionTool
           dropFunctionTool enableRLSTool disableRLSTool createRLSPolicyTool
           dropRLSPolicyTool editRLSPolicyTool getRLSPoliciesTool
           manageFunctionsTool manageRLSTool];
    unfold manageFunctionsTool_execute, manageRLSTool_execute;
    handle_tac.
Qed.

Lemma tool_calls_leave_no_handle_witness :
  db_client
    (snd (callTool cli_default (wide_server cli_default)
            (mkRequest "pg_manage_rls"
               (JObj [("operation", JStr "enable"); ("tableName", JStr "users")]))
            failing_statement_world))
  = false.
Proof.
  apply (@tool_calls_leave_no_handle example_numbers cli_default
           (wide_server cli_default)
           (mkRequest "pg_manage_rls"
              (JObj [("operation", JStr "enable"); ("tableName", JStr "users")]))).
  - intros tool H. injection H as <-. cbn. tauto.
  - reflexivity.
Defined.
